(** * Campus map client: location provider, route pages, route form, selector

  A shallow embedding of the client-side logic of the campus navigation
  front end:

  - [LocationContext]: the [LocationProvider] of the location context
    ([startTracking], [stopTracking] and the two position callbacks);
  - [NavigatorPage]: the page with [handleRouteSubmit];
  - [PlannerPage]: the page with [handleRouteCalculation] and
    [handleMapClick];
  - [RouteForm]: the form with [swapLocations];
  - [LocationSelector]: the drop-down of catalog locations.

  React state is modelled by records, one field per [useState] cell, and
  every handler by a function from the state before the call to the state
  after it.  What the browser supplies (positions, errors, HTTP responses)
  is an argument of the handler that receives it.  A handler that reads a
  cell from the closure of the render that made it takes the rendered
  value as an argument: [stopTracking] of the provider, and the
  [onChange] that a pending request for the current location holds. *)

From Stdlib Require Import ZArith Bool Ascii String.
From Stdlib Require Import Floats.SpecFloat.
From Stdlib Require Import DecimalString.
From Stdlib Require Import Sorting.Sorted.
From stdpp Require Import base option list gmap strings.

Open Scope string_scope.
Open Scope Z_scope.

(** ** JavaScript values used by the client *)

Module Js.

(** A JavaScript [number] is an IEEE 754 double: signed zeros, signed
    infinities, NaN and the finite values. *)
Definition number : Type := spec_float.

(** [ToBoolean] on a number: [+0], [-0] and [NaN] are falsy. *)
Definition truthy_number (x : number) : bool :=
  match x with
  | S754_zero _ => false
  | S754_nan => false
  | S754_infinity _ => true
  | S754_finite _ _ _ => true
  end.

Definition is_zero (x : number) : bool :=
  match x with
  | S754_zero _ => true
  | _ => false
  end.

Definition is_nan (x : number) : bool :=
  match x with
  | S754_nan => true
  | _ => false
  end.

(** [v || undefined] for [v : number | null].  [None] on the left is
    [null], [None] on the right is [undefined]: the field is absent. *)
Definition or_undefined (v : option number) : option number :=
  match v with
  | Some x => if truthy_number x then Some x else None
  | None => None
  end.

(** [ToBoolean] on a string: only the empty string is falsy. *)
Definition truthy_string (s : string) : bool :=
  match s with
  | EmptyString => false
  | String _ _ => true
  end.

(** [v || d] for [v : string | undefined] and a string literal [d]. *)
Definition or_string (v : option string) (d : string) : string :=
  match v with
  | Some s => if truthy_string s then s else d
  | None => d
  end.

(** [s.includes(sub)] *)
Definition includes (s sub : string) : bool :=
  match index 0 sub s with
  | Some _ => true
  | None => false
  end.

(** Whether the character [c] occurs in [s]. *)
Fixpoint occurs (c : ascii) (s : string) : bool :=
  match s with
  | EmptyString => false
  | String b rest => bool_decide (b = c) || occurs c rest
  end.

(** Template-literal rendering of an integer, as in [`${response.status}`]. *)
Definition show_int (n : Z) : string :=
  NilZero.string_of_int (Z.to_int n).

End Js.

(** ** The location provider *)

Module LocationContext.
Import Js.

(** [GeolocationCoordinates]: the fields the provider reads.  [heading]
    and [speed] are [number | null] in the platform interface. *)
Record GeolocationCoordinates := {
  coords_latitude : number;
  coords_longitude : number;
  coords_accuracy : number;
  coords_heading : option number;
  coords_speed : option number
}.

(** [GeolocationPosition]; the timestamp is an integer count of
    milliseconds. *)
Record GeolocationPosition := {
  coords : GeolocationCoordinates;
  position_timestamp : Z
}.

Record LocationData := {
  latitude : number;
  longitude : number;
  accuracy : number;
  heading : option number;
  speed : option number;
  timestamp : Z
}.

(** [navigator] as the provider uses it: whether [navigator.geolocation]
    exists, which watch ids have been handed out by [watchPosition] and not
    yet been given to [clearWatch], the id the next [watchPosition]
    returns, and how many calls of [navigator.permissions.query] the
    browser has not settled yet. *)
Record Navigator := {
  geolocation : bool;
  watches : gset Z;
  next_watch : Z;
  queries : nat
}.

Definition watchPosition (nav : Navigator) : Z * Navigator :=
  (next_watch nav,
   {| geolocation := geolocation nav;
      watches := {[ next_watch nav ]} ∪ watches nav;
      next_watch := next_watch nav + 1;
      queries := queries nav |}).

Definition clearWatch (id : Z) (nav : Navigator) : Navigator :=
  {| geolocation := geolocation nav;
     watches := watches nav ∖ {[ id ]};
     next_watch := next_watch nav;
     queries := queries nav |}.

(** [navigator.permissions.query({ name: 'geolocation' })]: one more
    promise that the browser has to settle. *)
Definition query (nav : Navigator) : Navigator :=
  {| geolocation := geolocation nav;
     watches := watches nav;
     next_watch := next_watch nav;
     queries := S (queries nav) |}.

(** The browser settles one of the pending queries. *)
Definition settle (nav : Navigator) : Navigator :=
  {| geolocation := geolocation nav;
     watches := watches nav;
     next_watch := next_watch nav;
     queries := pred (queries nav) |}.

(** The five [useState] cells of [LocationProvider]. *)
Record State := {
  currentLocation : option LocationData;
  isTracking : bool;
  error : option string;
  hasLocationPermission : bool;
  watchId : option Z
}.

Definition initial : State :=
  {| currentLocation := None;
     isTracking := false;
     error := None;
     hasLocationPermission := false;
     watchId := None |}.

Definition setCurrentLocation (v : option LocationData) (s : State) : State :=
  {| currentLocation := v; isTracking := isTracking s; error := error s;
     hasLocationPermission := hasLocationPermission s; watchId := watchId s |}.

Definition setIsTracking (v : bool) (s : State) : State :=
  {| currentLocation := currentLocation s; isTracking := v; error := error s;
     hasLocationPermission := hasLocationPermission s; watchId := watchId s |}.

Definition setError (v : option string) (s : State) : State :=
  {| currentLocation := currentLocation s; isTracking := isTracking s; error := v;
     hasLocationPermission := hasLocationPermission s; watchId := watchId s |}.

Definition setHasLocationPermission (v : bool) (s : State) : State :=
  {| currentLocation := currentLocation s; isTracking := isTracking s; error := error s;
     hasLocationPermission := v; watchId := watchId s |}.

Definition setWatchId (v : option Z) (s : State) : State :=
  {| currentLocation := currentLocation s; isTracking := isTracking s; error := error s;
     hasLocationPermission := hasLocationPermission s; watchId := v |}.

(** The provider together with the browser object it talks to. *)
Definition World : Type := State * Navigator.

Definition locationData_of (position : GeolocationPosition) : LocationData :=
  {| latitude := coords_latitude (coords position);
     longitude := coords_longitude (coords position);
     accuracy := coords_accuracy (coords position);
     heading := or_undefined (coords_heading (coords position));
     speed := or_undefined (coords_speed (coords position));
     timestamp := position_timestamp position |}.

Definition successCallback (position : GeolocationPosition) (s : State) : State :=
  setError None
    (setHasLocationPermission true
      (setCurrentLocation (Some (locationData_of position)) s)).

(** [error.code] constants of [GeolocationPositionError]. *)
Definition PERMISSION_DENIED : Z := 1.
Definition POSITION_UNAVAILABLE : Z := 2.
Definition TIMEOUT : Z := 3.

Definition errorMessage (code : Z) : string :=
  if code =? PERMISSION_DENIED then "Location access denied by user"
  else if code =? POSITION_UNAVAILABLE then "Location information unavailable"
  else if code =? TIMEOUT then "Location request timed out"
  else "Location access denied".

Definition errorCallback (code : Z) (s : State) : State :=
  setHasLocationPermission false
    (setIsTracking false
      (setError (Some (errorMessage code)) s)).

(** [startTracking] reads no cell: [useCallback] with no dependency gives
    the same function in every render. *)
Definition startTracking (w : World) : World :=
  let '(s, nav) := w in
  if negb (geolocation nav) then
    (setError (Some "Geolocation is not supported by this browser") s, nav)
  else
    let s1 := setIsTracking true (setError None s) in
    let '(id, nav') := watchPosition nav in
    (setWatchId (Some id) s1, nav').

(** [stopTracking] is made by [useCallback] with the dependency
    [watchId]: the function of a render reads the [watchId] of that
    render, [rendered], from its closure, whatever has been put in the
    cell since. *)
Definition stopTracking (rendered : option Z) (w : World) : World :=
  let '(s, nav) := w in
  let '(s1, nav1) :=
    match rendered with
    | Some id => (setWatchId None s, clearWatch id nav)
    | None => (s, nav)
    end in
  (setIsTracking false s1, nav1).

(** The value the provider hands to its consumers: the fields of
    [LocationContextType] other than the two functions.  [watchId] is not
    part of it. *)
Definition exposed (s : State) : option LocationData * bool * option string * bool :=
  (currentLocation s, isTracking s, error s, hasLocationPermission s).

(** [checkLocationPermission], up to its [await]: on a browser with
    geolocation it calls [navigator.permissions.query] and waits.  The
    rest of the function runs when the browser settles the query:
    [setHasLocationPermission(permission.state === 'granted')] when the
    promise is fulfilled (the event [PermissionAnswer]), nothing when it
    is rejected (the event [PermissionRejected]: the [catch] only returns).
    On a browser without [navigator.permissions] the call throws inside
    the [try] and ends in the same [catch]; this is a query that is
    rejected.  The provider does not use the value the function returns. *)
Definition checkLocationPermission (w : World) : World :=
  let '(s, nav) := w in
  if negb (geolocation nav) then
    (setError (Some "Geolocation is not supported by this browser") s, nav)
  else (s, query nav).

(** The clean-up function that the effect of the provider returns: it
    clears the watch whose id the effect captured. *)
Definition cleanup (captured : option Z) (nav : Navigator) : Navigator :=
  match captured with
  | Some id => clearWatch id nav
  | None => nav
  end.

(** A render, with the effects it runs.  The effect has the dependencies
    [checkLocationPermission], which never changes, and [watchId]: when
    [watchId] differs from the value [captured] in the previous render, the
    previous clean-up runs and the effect runs again, which calls
    [checkLocationPermission]. *)
Definition commit (captured : option Z) (w : World) : World :=
  if decide (watchId (fst w) = captured) then w
  else checkLocationPermission (fst w, cleanup captured (snd w)).

(** The provider after its first render. *)
Definition mount (nav : Navigator) : World :=
  checkLocationPermission (initial, nav).

(** What can happen to a mounted provider between two renders: a consumer
    calls one of the two functions of the context, the browser invokes a
    callback of the watch [id], or the browser settles a permission query,
    with [permission.state === 'granted'] or by rejecting it.  The browser
    only calls back watches that are registered and only settles queries
    that are pending. *)
Inductive Event :=
| StartTracking
| StopTracking
| Position (id : Z) (position : GeolocationPosition)
| PositionError (id : Z) (code : Z)
| PermissionAnswer (granted : bool)
| PermissionRejected.

(** The handler of an event in a provider whose last render had
    [watchId = rendered]: the state updates it queues and what it does to
    the browser, before any render. *)
Definition handle (rendered : option Z) (w : World) (e : Event) : World :=
  match e with
  | StartTracking => startTracking w
  | StopTracking => stopTracking rendered w
  | Position id position =>
      if decide (id ∈ watches (snd w))
      then (successCallback position (fst w), snd w) else w
  | PositionError id code =>
      if decide (id ∈ watches (snd w))
      then (errorCallback code (fst w), snd w) else w
  | PermissionAnswer granted =>
      if decide (queries (snd w) = 0%nat) then w
      else (setHasLocationPermission granted (fst w), settle (snd w))
  | PermissionRejected =>
      if decide (queries (snd w) = 0%nat) then w
      else (fst w, settle (snd w))
  end.

(** A mounted provider between two events: the cells with the updates
    queued so far, the browser, and the [watchId] of the last render, which
    is the one in the closures of that render, [stopTracking] and the
    clean-up of the effect.  Consumers call the functions of the last
    render. *)
Record Mounted := {
  world : World;
  rendered : option Z
}.

Definition cells (m : Mounted) : State := fst (world m).

Definition nav (m : Mounted) : Navigator := snd (world m).

(** React batches the updates of the handlers that run in one task and
    renders once afterwards: a run of the provider is any sequence of
    handlers and renders. *)
Inductive Action :=
| Call (e : Event)
| Render.

Definition act (m : Mounted) (a : Action) : Mounted :=
  match a with
  | Call e =>
      {| world := handle (rendered m) (world m) e; rendered := rendered m |}
  | Render =>
      {| world := commit (rendered m) (world m);
         rendered := watchId (fst (world m)) |}
  end.

Definition acts (m : Mounted) (l : list Action) : Mounted := foldl act m l.

(** The provider after its first render, in which [watchId] is [null]. *)
Definition mounted (nav : Navigator) : Mounted :=
  {| world := mount nav; rendered := None |}.

(** A provider whose last render shows the cells as they are. *)
Definition settled (w : World) : Mounted :=
  {| world := w; rendered := watchId (fst w) |}.

(** What the browser is left with when the provider is unmounted: the
    clean-up of the last render runs. *)
Definition unmount (m : Mounted) : Navigator :=
  cleanup (rendered m) (nav m).

(** An event in a task of its own, on a provider whose last render shows
    the cells as they are: the handler, then the render it causes.  Events
    that share a batch are runs of [act]. *)
Definition step (w : World) (e : Event) : World :=
  world (act (act (settled w) (Call e)) Render).

Definition run (w : World) (es : list Event) : World := foldl step w es.

(** The actions of [run]: every event is followed by a render. *)
Definition unbatch (es : list Event) : list Action :=
  es ≫= λ e, [Call e; Render].

(** A call of [startTracking] or [stopTracking] finds the provider
    rendered: the [watchId] of the last render is the one in the cell, no
    earlier call of the batch has changed it. *)
Definition finds_rendered (m : Mounted) (a : Action) : bool :=
  match a with
  | Call StartTracking | Call StopTracking =>
      bool_decide (watchId (cells m) = rendered m)
  | _ => true
  end.

(** The runs in which every call of [startTracking] and [stopTracking]
    finds the provider rendered. *)
Fixpoint unbatched (m : Mounted) (l : list Action) : bool :=
  match l with
  | [] => true
  | a :: rest => finds_rendered m a && unbatched (act m a) rest
  end.

(** The samples that a sequence of positions, delivered one after the
    other to the success callback, leaves in [currentLocation]: the
    retained sample after each delivery. *)
Fixpoint retained (s : State) (ps : list GeolocationPosition) : list LocationData :=
  match ps with
  | [] => []
  | p :: rest =>
      let s' := successCallback p s in
      match currentLocation s' with
      | Some d => d :: retained s' rest
      | None => retained s' rest
      end
  end.

(** The ordering rule of the specification: a position that is not newer
    than the retained sample leaves the retained sample in place. *)
Definition rejects_stale_samples : Prop :=
  ∀ (s : State) (d : LocationData) (p : GeolocationPosition),
    currentLocation s = Some d →
    position_timestamp p ≤ timestamp d →
    currentLocation (successCallback p s) = Some d.

(** The rule of the specification for headings and speeds: a value that
    is not zero is stored unchanged. *)
Definition preserves_nonzero : Prop :=
  ∀ (position : GeolocationPosition) (s : State) (d : LocationData),
    currentLocation (successCallback position s) = Some d →
    (∀ x, coords_heading (coords position) = Some x →
          is_zero x = false → heading d = Some x)
    ∧ (∀ x, coords_speed (coords position) = Some x →
            is_zero x = false → speed d = Some x).

(** A browser with the geolocation capability, no watch and no pending
    query yet. *)
Definition browser : Navigator :=
  {| geolocation := true; watches := ∅; next_watch := 0; queries := 0 |}.

(** Watch ids are fresh: every registered id is below the next one. *)
Definition fresh_ids (nav : Navigator) : Prop :=
  ∀ id, id ∈ watches nav → id < next_watch nav.

(** The watch with the given id, if any. *)
Definition the_watch (o : option Z) : gset Z :=
  match o with
  | Some id => {[ id ]}
  | None => ∅
  end.

(** The registered watches are the one in [watchId], if any. *)
Definition one_watch (w : World) : Prop :=
  watches (snd w) = match watchId (fst w) with
                    | Some id => {[ id ]}
                    | None => ∅
                    end.

(** What holds of a provider under any batching: watch ids are fresh, the
    watch in [watchId] is registered, and a provider that says it is
    tracking has a watch in [watchId]. *)
Definition live_watch (m : Mounted) : Prop :=
  fresh_ids (nav m)
  ∧ (∀ id, watchId (cells m) = Some id → id ∈ watches (nav m))
  ∧ (isTracking (cells m) = true → is_Some (watchId (cells m))).

(** What holds as long as the calls find the provider rendered: the
    registered watches are the one in [watchId], next to the one of the
    last render until the next render clears it. *)
Definition one_watch_per_render (m : Mounted) : Prop :=
  if decide (watchId (cells m) = rendered m)
  then watches (nav m) = the_watch (watchId (cells m))
  else watches (nav m) ∖ the_watch (rendered m) = the_watch (watchId (cells m)).

(** The teardown rule of the specification: once an error has been
    delivered on a watch, that watch is no longer registered. *)
Definition error_tears_down : Prop :=
  ∀ (w : World) (id code : Z),
    id ∈ watches (snd w) →
    id ∉ watches (snd (step w (PositionError id code))).

(** The idempotence rule of the specification: on a provider that is
    tracking, a call of [startTracking] leaves the registered watches as
    they are. *)
Definition start_registers_nothing : Prop :=
  ∀ (w : World),
    isTracking (fst w) = true →
    watches (snd (startTracking w)) = watches (snd w).

End LocationContext.

(** ** Route data and the HTTP exchange with the routing backend *)

Module Route.
Import Js.

(** Modelled from the spec: the declarations of [types/route] are not part
    of the sources; the fields are those of the response body of the
    routing backend, which the components read as [route.start.lat],
    [route.path_coordinates] and so on. *)
Record Coordinate := {
  lat : number;
  lng : number
}.

Record RouteData := {
  start : Coordinate;
  end_ : Coordinate;
  path_coordinates : list Coordinate;
  total_distance : number;
  estimated_time_minutes : number
}.

(** The four numbers of the form, as every handler destructures them. *)
Record RouteFormData := {
  startLat : number;
  startLng : number;
  endLat : number;
  endLng : number
}.

End Route.

Module Http.
Import Js Route.

(** The values a [catch] clause of the pages can receive.  [TypeError]
    and [SyntaxError] are subclasses of [Error]; [NotAnError] stands for
    any thrown value that is no [Error] object. *)
Inductive Thrown :=
| TypeError (message : string)
| SyntaxError (message : string)
| Error (message : string)
| NotAnError.

Definition instanceof_TypeError (err : Thrown) : bool :=
  match err with TypeError _ => true | _ => false end.

Definition instanceof_SyntaxError (err : Thrown) : bool :=
  match err with SyntaxError _ => true | _ => false end.

Definition instanceof_Error (err : Thrown) : bool :=
  match err with NotAnError => false | _ => true end.

Definition message_of (err : Thrown) : string :=
  match err with
  | TypeError m | SyntaxError m | Error m => m
  | NotAnError => ""
  end.

(** The parsed body.  [success] is the truthiness of [data.success],
    [error] the string [data.error] when present, and [route] the object
    [data.route] when present and not [null]. *)
Record Envelope := {
  success : bool;
  error : option string;
  route : option RouteData
}.

(** The body of a response: text that [response.json()] rejects with a
    [SyntaxError]; the JSON text [null], on which the first property read
    raises a [TypeError] with an engine-specific message; or an envelope. *)
Inductive Body :=
| Malformed (message : string)
| Null (message : string)
| Parsed (data : Envelope).

Record Response := {
  status : Z;
  body : Body
}.

(** [response.ok]: the status is in the range 200 to 299. *)
Definition ok (r : Response) : bool :=
  (200 <=? status r) && (status r <=? 299).

(** How [await fetch(url)] ends: the promise rejects, or it resolves with
    a response whose body has been received. *)
Inductive FetchResult :=
| Rejected (err : Thrown)
| Resolved (r : Response).

(** The outcomes in which no envelope with a truthy [success] arrives:
    a rejected request, a body that does not parse or is [null], or an
    envelope whose [success] is falsy.  The status plays no part. *)
Definition no_success_envelope (res : FetchResult) : bool :=
  match res with
  | Rejected _ => true
  | Resolved r =>
      match body r with
      | Malformed _ => true
      | Null _ => true
      | Parsed data => negb (success data)
      end
  end.

(** Code inside a [try] block: it updates the component state [S] and
    either completes with a value or throws. *)
Definition Try (S A : Type) : Type := S → S * (Thrown + A).

Definition ret {S A} (a : A) : Try S A := λ s, (s, inr a).

Definition throw {S A} (err : Thrown) : Try S A := λ s, (s, inl err).

Definition bind {S A B} (m : Try S A) (k : A → Try S B) : Try S B :=
  λ s, match m s with
       | (s', inl err) => (s', inl err)
       | (s', inr a) => k a s'
       end.

Global Instance Try_ret {S} : MRet (Try S) := λ A, ret.
Global Instance Try_bind {S} : MBind (Try S) := λ A B k m, bind m k.

(** A state setter called inside the block. *)
Definition set {S} (f : S → S) : Try S unit := λ s, (f s, inr tt).

(** [try { block } catch (err) { handler(err) } finally { final }] *)
Definition try_catch_finally {S A}
    (block : Try S A) (handler : Thrown → S → S) (final : S → S) (s : S) : S :=
  match block s with
  | (s', inl err) => final (handler err s')
  | (s', inr _) => final s'
  end.

Definition await_fetch {S} (res : FetchResult) : Try S Response :=
  match res with
  | Rejected err => throw err
  | Resolved r => ret r
  end.

(** [await response.json()], up to the read of [data.success] that
    follows it in both handlers. *)
Definition json {S} (r : Response) : Try S Envelope :=
  match body r with
  | Malformed m => throw (SyntaxError m)
  | Null m => throw (TypeError m)
  | Parsed data => ret data
  end.

End Http.

(** ** The page with live navigation: [handleRouteSubmit] *)

Module NavigatorPage.
Import Js Route Http.

Record LocationPoint := {
  name : string;
  coordinates : number * number
}.

Record State := {
  routeData : option RouteData;
  selectedFromLocation : option LocationPoint;
  selectedToLocation : option LocationPoint;
  isLoading : bool;
  error : option string;
  isNavigationMode : bool
}.

Definition setRouteData (v : option RouteData) (s : State) : State :=
  {| routeData := v; selectedFromLocation := selectedFromLocation s;
     selectedToLocation := selectedToLocation s; isLoading := isLoading s;
     error := error s; isNavigationMode := isNavigationMode s |}.

Definition setSelectedFromLocation (v : option LocationPoint) (s : State) : State :=
  {| routeData := routeData s; selectedFromLocation := v;
     selectedToLocation := selectedToLocation s; isLoading := isLoading s;
     error := error s; isNavigationMode := isNavigationMode s |}.

Definition setSelectedToLocation (v : option LocationPoint) (s : State) : State :=
  {| routeData := routeData s; selectedFromLocation := selectedFromLocation s;
     selectedToLocation := v; isLoading := isLoading s;
     error := error s; isNavigationMode := isNavigationMode s |}.

Definition setIsLoading (v : bool) (s : State) : State :=
  {| routeData := routeData s; selectedFromLocation := selectedFromLocation s;
     selectedToLocation := selectedToLocation s; isLoading := v;
     error := error s; isNavigationMode := isNavigationMode s |}.

Definition setError (v : option string) (s : State) : State :=
  {| routeData := routeData s; selectedFromLocation := selectedFromLocation s;
     selectedToLocation := selectedToLocation s; isLoading := isLoading s;
     error := v; isNavigationMode := isNavigationMode s |}.

Definition setIsNavigationMode (v : bool) (s : State) : State :=
  {| routeData := routeData s; selectedFromLocation := selectedFromLocation s;
     selectedToLocation := selectedToLocation s; isLoading := isLoading s;
     error := error s; isNavigationMode := v |}.

Definition initial : State :=
  {| routeData := None; selectedFromLocation := None; selectedToLocation := None;
     isLoading := false; error := None; isNavigationMode := false |}.

Definition http_error_message (status : Z) : string :=
  "HTTP error! status: " ++ show_int status.

(** The [try] block of [handleRouteSubmit]; [res] is how the one
    [fetch] of the call ends. *)
Definition submit_block (formData : RouteFormData) (res : FetchResult)
    : Try State unit :=
  set (setIsLoading true);;
  set (setError None);;
  response ← await_fetch res;
  (if negb (ok response)
   then throw (Error (http_error_message (status response)))
   else ret tt);;
  data ← json response;
  (if success data && bool_decide (is_Some (route data))
   then set (setRouteData (route data))
   else throw (Error (or_string (Http.error data) "Failed to calculate route")));;
  set (setSelectedFromLocation
         (Some {| name := "Start Location";
                  coordinates := (startLng formData, startLat formData) |}));;
  set (setSelectedToLocation
         (Some {| name := "Destination";
                  coordinates := (endLng formData, endLat formData) |})).

Definition invalid_url_message : string :=
  "Invalid URL format. Please check your network connection and try again.".
Definition invalid_response_message : string :=
  "Invalid response from server. Please try again.".
Definition cannot_connect_message : string :=
  "Cannot connect to the server. Please ensure the backend is running.".
Definition unexpected_message : string :=
  "An unexpected error occurred. Please try again.".

(** The [catch] clause of [handleRouteSubmit]. *)
Definition submit_catch (err : Thrown) : State → State :=
  if instanceof_TypeError err
     && includes (message_of err) "string did not match the expected pattern"
  then setError (Some invalid_url_message)
  else if instanceof_SyntaxError err
  then setError (Some invalid_response_message)
  else if instanceof_Error err
  then setError (Some (if includes (message_of err) "Failed to fetch"
                       then cannot_connect_message
                       else message_of err))
  else setError (Some unexpected_message).

Definition handleRouteSubmit (formData : RouteFormData) (res : FetchResult)
    : State → State :=
  try_catch_finally (submit_block formData res) submit_catch (setIsLoading false).

Definition handleStartNavigation : State → State := setIsNavigationMode true.
Definition handleStopNavigation : State → State := setIsNavigationMode false.

End NavigatorPage.

(** ** The page with the clickable map: [handleRouteCalculation],
     [handleMapClick] *)

Module PlannerPage.
Import Js Route Http.

(** The union type ['start' | 'end']. *)
Inductive Endpoint := Start | End.

Record State := {
  route : option RouteData;
  loading : bool;
  error : option string;
  selectedLocation : option Endpoint;
  isFullscreen : bool;
  showRouteForm : bool;
  showDirections : bool;
  coordinates : RouteFormData
}.

Definition setRoute (v : option RouteData) (s : State) : State :=
  {| route := v; loading := loading s; error := error s;
     selectedLocation := selectedLocation s; isFullscreen := isFullscreen s;
     showRouteForm := showRouteForm s; showDirections := showDirections s;
     coordinates := coordinates s |}.

Definition setLoading (v : bool) (s : State) : State :=
  {| route := route s; loading := v; error := error s;
     selectedLocation := selectedLocation s; isFullscreen := isFullscreen s;
     showRouteForm := showRouteForm s; showDirections := showDirections s;
     coordinates := coordinates s |}.

Definition setError (v : option string) (s : State) : State :=
  {| route := route s; loading := loading s; error := v;
     selectedLocation := selectedLocation s; isFullscreen := isFullscreen s;
     showRouteForm := showRouteForm s; showDirections := showDirections s;
     coordinates := coordinates s |}.

Definition setSelectedLocation (v : option Endpoint) (s : State) : State :=
  {| route := route s; loading := loading s; error := error s;
     selectedLocation := v; isFullscreen := isFullscreen s;
     showRouteForm := showRouteForm s; showDirections := showDirections s;
     coordinates := coordinates s |}.

Definition setShowRouteForm (v : bool) (s : State) : State :=
  {| route := route s; loading := loading s; error := error s;
     selectedLocation := selectedLocation s; isFullscreen := isFullscreen s;
     showRouteForm := v; showDirections := showDirections s;
     coordinates := coordinates s |}.

Definition setShowDirections (v : bool) (s : State) : State :=
  {| route := route s; loading := loading s; error := error s;
     selectedLocation := selectedLocation s; isFullscreen := isFullscreen s;
     showRouteForm := showRouteForm s; showDirections := v;
     coordinates := coordinates s |}.

(** [setCoordinates(prev => f(prev))]; a plain value is the constant [f]. *)
Definition setCoordinates (f : RouteFormData → RouteFormData) (s : State) : State :=
  {| route := route s; loading := loading s; error := error s;
     selectedLocation := selectedLocation s; isFullscreen := isFullscreen s;
     showRouteForm := showRouteForm s; showDirections := showDirections s;
     coordinates := f (coordinates s) |}.

(** The default coordinates 28.525237, 77.570965, 28.525503 and
    77.575042, as the doubles nearest to these literals. *)
Definition defaultCoordinates : RouteFormData :=
  {| startLat := S754_finite false 8029140420240943 (-48);
     startLng := S754_finite false 5458571391699528 (-46);
     endLat := S754_finite false 8029215292584748 (-48);
     endLng := S754_finite false 5458858285069540 (-46) |}.

Definition initial : State :=
  {| route := None; loading := false; error := None; selectedLocation := None;
     isFullscreen := false; showRouteForm := true; showDirections := false;
     coordinates := defaultCoordinates |}.

Definition connect_failure_message : string :=
  "Failed to connect to the API. Please check if the backend server is running.".

(** The [try] block of [handleRouteCalculation]. *)
Definition calculation_block (res : FetchResult) : Try State unit :=
  response ← await_fetch res;
  data ← json response;
  if success data
  then set (setRoute (Http.route data))
  else set (setError (Some (or_string (Http.error data) "Failed to calculate route"))).

Definition handleRouteCalculation (coords : RouteFormData) (res : FetchResult)
    (s : State) : State :=
  let s := setLoading true s in
  let s := setError None s in
  let s := setRoute None s in
  let s := setCoordinates (λ _, coords) s in
  try_catch_finally (calculation_block res)
    (λ _, setError (Some connect_failure_message))
    (setLoading false) s.

Definition handleReset (s : State) : State :=
  setShowDirections false
    (setShowRouteForm true
      (setSelectedLocation None
        (setError None
          (setRoute None s)))).

Definition handleMapClick (lat lng : number) (s : State) : State :=
  let s :=
    match selectedLocation s with
    | Some Start =>
        setCoordinates (λ prev, {| startLat := lat; startLng := lng;
                                   endLat := endLat prev; endLng := endLng prev |}) s
    | Some End =>
        setCoordinates (λ prev, {| startLat := startLat prev; startLng := startLng prev;
                                   endLat := lat; endLng := lng |}) s
    | None => s
    end in
  setSelectedLocation None s.

End PlannerPage.

(** ** Catalog locations and the location selector *)

Module LocationSelector.
Import Js.

(** A [Location]: the six fields that [handleCurrentLocation] fills in
    and that the drop-down reads. *)
Record Location := {
  id : string;
  name : string;
  lat : number;
  lng : number;
  category : string;
  description : string
}.

Record Props := {
  value : option Location;
  allowCurrentLocation : bool;
  excludeLocationId : option string
}.

(** The props of a selector that is given only the optional ones the
    caller writes down: [allowCurrentLocation] defaults to [false]. *)
Definition props (value : option Location) (allowCurrentLocation : option bool)
    (excludeLocationId : option string) : Props :=
  {| value := value;
     allowCurrentLocation := default false allowCurrentLocation;
     excludeLocationId := excludeLocationId |}.

Record State := {
  isOpen : bool;
  searchTerm : string;
  selectedCategory : string
}.

Definition closed : State :=
  {| isOpen := false; searchTerm := ""; selectedCategory := "all" |}.

(** [obj[key] = v] on an object kept as its list of entries, in insertion
    order: an existing key keeps its place. *)
Fixpoint obj_set {A} (key : string) (v : A) (obj : list (string * A))
    : list (string * A) :=
  match obj with
  | [] => [(key, v)]
  | (k, w) :: rest =>
      if bool_decide (k = key) then (k, v) :: rest
      else (k, w) :: obj_set key v rest
  end.

Section Catalog.

(** The static catalog [locations.json] and the string method
    [toLowerCase] of the host. *)
Variable catalog : list Location.
Variable categories : list string.
Variable toLowerCase : string → string.

Definition locations (p : Props) : list Location :=
  filter (λ location, Some (id location) ≠ excludeLocationId p) catalog.

Definition matchesSearch (st : State) (location : Location) : bool :=
  includes (toLowerCase (name location)) (toLowerCase (searchTerm st))
  || includes (toLowerCase (description location)) (toLowerCase (searchTerm st)).

Definition matchesCategory (st : State) (location : Location) : bool :=
  bool_decide (selectedCategory st = "all")
  || bool_decide (category location = selectedCategory st).

Definition filteredLocations (p : Props) (st : State) : list Location :=
  filter (λ location, matchesSearch st location && matchesCategory st location)
    (locations p).

Definition groupedLocations (p : Props) (st : State)
    : list (string * list Location) :=
  foldl (λ acc c,
           obj_set c (filter (λ loc, category loc = c) (filteredLocations p st)) acc)
    [] categories.

(** The location buttons of the open drop-down, in the order they are
    rendered; a closed selector renders none. *)
Definition offered (p : Props) (st : State) : list Location :=
  if isOpen st
  then concat (map snd (groupedLocations p st))
  else [].

(** Whether the "Use Current Location" button is rendered. *)
Definition currentLocationOffered (p : Props) (st : State) : bool :=
  isOpen st && allowCurrentLocation p.

End Catalog.

(** What [handleCurrentLocation] passes to [onChange] for a fix at
    [(latitude, longitude)]. *)
Definition currentLoc (latitude longitude : number) : Location :=
  {| id := "current";
     name := "Current Location";
     lat := latitude;
     lng := longitude;
     category := "Current";
     description := "Your current GPS location" |}.

End LocationSelector.

(** ** The route form *)

Module RouteForm.
Import Js Route LocationSelector.

(** The [useState] cells of the form.  The [errors] cell is only ever set
    to the empty object and never read; it is left out. *)
Record State := {
  formData : RouteFormData;
  selectedStartLocation : option Location;
  selectedEndLocation : option Location
}.

(** The parent as the form sees it: [Some c] when the parent keeps the
    coordinates [c] and passes them as [coordinates] with its setter as
    [onCoordinateChange]; [None] when it passes neither. *)
Definition Host : Type := option RouteFormData.

Definition World : Type := State * Host.

Definition setFormData (v : RouteFormData) (s : State) : State :=
  {| formData := v; selectedStartLocation := selectedStartLocation s;
     selectedEndLocation := selectedEndLocation s |}.

Definition setSelectedStartLocation (v : option Location) (s : State) : State :=
  {| formData := formData s; selectedStartLocation := v;
     selectedEndLocation := selectedEndLocation s |}.

Definition setSelectedEndLocation (v : option Location) (s : State) : State :=
  {| formData := formData s; selectedStartLocation := selectedStartLocation s;
     selectedEndLocation := v |}.

(** [if (onCoordinateChange) onCoordinateChange(v)] *)
Definition onCoordinateChange (v : RouteFormData) (h : Host) : Host :=
  match h with
  | Some _ => Some v
  | None => None
  end.

(** The effect that follows a change of the [coordinates] prop. *)
Definition syncCoordinates (w : World) : World :=
  match snd w with
  | Some c => (setFormData c (fst w), snd w)
  | None => w
  end.

(** Between two events the form shows the parent's coordinates: the
    effect on [coordinates] has run. *)
Definition coherent (w : World) : Prop :=
  ∀ c, snd w = Some c → formData (fst w) = c.

(** The default coordinates 28.525237, 77.570965, 28.525503 and
    77.575042, as the doubles nearest to these literals. *)
Definition defaultData : RouteFormData :=
  {| startLat := S754_finite false 8029140420240943 (-48);
     startLng := S754_finite false 5458571391699528 (-46);
     endLat := S754_finite false 8029215292584748 (-48);
     endLng := S754_finite false 5458858285069540 (-46) |}.

Definition validateForm (s : State) : bool :=
  bool_decide (is_Some (selectedStartLocation s))
  && bool_decide (is_Some (selectedEndLocation s)).

Definition handleStartLocationChange (location : option Location) (w : World) : World :=
  let '(s, h) := w in
  let s := setSelectedStartLocation location s in
  match location with
  | Some l =>
      let newFormData :=
        {| startLat := lat l; startLng := lng l;
           endLat := endLat (formData s); endLng := endLng (formData s) |} in
      (setFormData newFormData s, onCoordinateChange newFormData h)
  | None => (s, h)
  end.

Definition handleEndLocationChange (location : option Location) (w : World) : World :=
  let '(s, h) := w in
  let s := setSelectedEndLocation location s in
  match location with
  | Some l =>
      let newFormData :=
        {| startLat := startLat (formData s); startLng := startLng (formData s);
           endLat := lat l; endLng := lng l |} in
      (setFormData newFormData s, onCoordinateChange newFormData h)
  | None => (s, h)
  end.

Definition swapLocations (w : World) : World :=
  let '(s, h) := w in
  let swappedData :=
    {| startLat := endLat (formData s); startLng := endLng (formData s);
       endLat := startLat (formData s); endLng := startLng (formData s) |} in
  let tempLocation := selectedStartLocation s in
  let s1 := setFormData swappedData s in
  let s2 := setSelectedStartLocation (selectedEndLocation s) s1 in
  let s3 := setSelectedEndLocation tempLocation s2 in
  (s3, onCoordinateChange swappedData h).

(** [handleReset], up to the parent's own [onReset]. *)
Definition handleReset (w : World) : World :=
  let '(s, h) := w in
  let s := setFormData defaultData s in
  let s := setSelectedStartLocation None s in
  let s := setSelectedEndLocation None s in
  (s, onCoordinateChange defaultData h).

(** The [disabled] attribute of the swap button and of the submit
    button: [loading || !selectedStartLocation || !selectedEndLocation]. *)
Definition swap_disabled (loading : bool) (s : State) : bool :=
  loading
  || negb (bool_decide (is_Some (selectedStartLocation s)))
  || negb (bool_decide (is_Some (selectedEndLocation s))).

Definition submit_disabled (loading : bool) (s : State) : bool :=
  swap_disabled loading s.

(** A click on the swap button: a disabled button runs no handler; after
    the handler, the effect on [coordinates] runs. *)
Definition clickSwap (loading : bool) (w : World) : World :=
  if swap_disabled loading (fst w) then w
  else syncCoordinates (swapLocations w).

(** The props the form gives to its two selectors. *)
Definition startSelectorProps (s : State) : Props :=
  props (selectedStartLocation s) (Some true) (id <$> selectedEndLocation s).

Definition endSelectorProps (s : State) : Props :=
  props (selectedEndLocation s) (Some false) (id <$> selectedStartLocation s).

End RouteForm.

(** ** The browsers a provider can be mounted on *)

Module LocationSession.
Import LocationContext.

(** A browser on which no watch has been registered and no permission
    query has been sent yet: with or without the geolocation capability,
    and with any id for its first watch. *)
Definition idle_browser (g : bool) (n : Z) : Navigator :=
  {| geolocation := g; watches := ∅; next_watch := n; queries := 0 |}.

(** The message of [startTracking] and of [checkLocationPermission] on a
    browser without [navigator.geolocation]. *)
Definition unsupported_message : string :=
  "Geolocation is not supported by this browser".

(** What the provider is like on such a browser. *)
Definition unsupported (w : World) : Prop :=
  geolocation (snd w) = false
  ∧ watches (snd w) = ∅
  ∧ watchId (fst w) = None
  ∧ isTracking (fst w) = false
  ∧ currentLocation (fst w) = None
  ∧ error (fst w) = Some unsupported_message.

End LocationSession.

(** ** The events of the page with the clickable map *)

Module PlannerSession.
Import Js Route Http PlannerPage.

Definition setIsFullscreen (v : bool) (s : State) : State :=
  {| route := route s; loading := loading s; error := error s;
     selectedLocation := selectedLocation s; isFullscreen := v;
     showRouteForm := showRouteForm s; showDirections := showDirections s;
     coordinates := coordinates s |}.

Definition toggleFullscreen (s : State) : State :=
  setIsFullscreen (negb (isFullscreen s)) s.

(** [!route] *)
Definition no_route (s : State) : bool :=
  negb (bool_decide (is_Some (route s))).

(** Whether [RouteForm] is on screen: below the map when there is no
    route, and in the fullscreen layout only while [showRouteForm] is set. *)
Definition form_shown (s : State) : bool :=
  if isFullscreen s then no_route s && showRouteForm s else no_route s.

(** What the children of the page and its own buttons can do to it.  The
    form reaches the page through [onSubmit], [onCoordinateChange] and
    [onReset]; it receives [onLocationSelect] and never calls it.  The map
    gets [handleMapClick] only while there is no route. *)
Inductive Event :=
| FormSubmit (coords : RouteFormData) (res : FetchResult)
| FormCoordinateChange (coords : RouteFormData)
| FormReset
| ResultReset
| MapClick (lat lng : number)
| ToggleFullscreen
| ShowDirections (v : bool)
| ShowRouteForm (v : bool)
| DismissError.

(** An event is not checked against what is on screen: every run of the
    page is a run of this function. *)
Definition step (s : State) (e : Event) : State :=
  match e with
  | FormSubmit coords res => handleRouteCalculation coords res s
  | FormCoordinateChange coords => setCoordinates (λ _, coords) s
  | FormReset => handleReset (setCoordinates (λ _, RouteForm.defaultData) s)
  | ResultReset => handleReset s
  | MapClick lat lng => if no_route s then handleMapClick lat lng s else s
  | ToggleFullscreen => toggleFullscreen s
  | ShowDirections v => setShowDirections v s
  | ShowRouteForm v => setShowRouteForm v s
  | DismissError => setError None s
  end.

Definition run (s : State) (es : list Event) : State := foldl step s es.

End PlannerSession.

(** ** The events of the page with live navigation *)

Module NavigatorSession.
Import Js Route Http NavigatorPage.

(** The [destination] prop of [LiveNavigation]. *)
Record Destination := {
  lat : number;
  lng : number;
  name : string
}.

Definition navigationDestination (s : State) : option Destination :=
  match selectedToLocation s with
  | Some l => Some {| lat := snd (coordinates l);
                      lng := fst (coordinates l);
                      name := NavigatorPage.name l |}
  | None => None
  end.

(** [isNavigationMode && routeData]: whether [LiveNavigation] is rendered. *)
Definition liveNavigationShown (s : State) : bool :=
  isNavigationMode s && bool_decide (is_Some (routeData s)).

(** [onReset] of the form and of the result card. *)
Definition onReset : State → State := setRouteData None.

(** The route object of an outcome that passes both checks of
    [handleRouteSubmit]: a status in 200..299, and an envelope with a
    truthy [success] and a route. *)
Definition accepted_route (res : FetchResult) : option RouteData :=
  match res with
  | Rejected _ => None
  | Resolved r =>
      if ok r then
        match body r with
        | Parsed data => if success data then Http.route data else None
        | _ => None
        end
      else None
  end.

(** The destination that a submission of [formData] asks for. *)
Definition requested_destination (formData : RouteFormData) : Destination :=
  {| lat := endLat formData; lng := endLng formData; name := "Destination" |}.

Inductive Event :=
| Submit (formData : RouteFormData) (res : FetchResult)
| Reset
| StartNavigation
| StopNavigation.

Definition step (s : State) (e : Event) : State :=
  match e with
  | Submit formData res => handleRouteSubmit formData res s
  | Reset => onReset s
  | StartNavigation => handleStartNavigation s
  | StopNavigation => handleStopNavigation s
  end.

Definition run (s : State) (es : list Event) : State := foldl step s es.

End NavigatorSession.

(** ** The events of the route form *)

Module FormSession.
Import Js Route LocationSelector RouteForm.

(** The form after its first render: [coordinates || defaults], nothing
    selected. *)
Definition mount (h : Host) : World :=
  ({| formData := default defaultData h;
      selectedStartLocation := None;
      selectedEndLocation := None |}, h).

(** [handleSubmit]: what is passed to [onSubmit], if anything. *)
Definition handleSubmit (s : State) : option RouteFormData :=
  if validateForm s then Some (formData s) else None.

(** A click on the submit button, which is disabled like the swap
    button. *)
Definition clickSubmit (loading : bool) (s : State) : option RouteFormData :=
  if submit_disabled loading s then None else handleSubmit s.

(** What the user can do in the form as it is rendered: a selector calls
    [onChange] with a location or with [null], or one of the two buttons
    is clicked while the [loading] prop has the given value.  The handlers
    are those of the current render and read the form data it shows.  For
    the current location this is the case of a fix that arrives before the
    form data changes; the fixes that arrive later are inputs of [feed]. *)
Inductive Event :=
| StartChange (location : option Location)
| EndChange (location : option Location)
| SwapClick (loading : bool)
| ResetClick (loading : bool).

(** The handler of an event, and the effect on [coordinates] after it.
    The reset button is disabled while loading. *)
Definition step (w : World) (e : Event) : World :=
  syncCoordinates
    match e with
    | StartChange location => handleStartLocationChange location w
    | EndChange location => handleEndLocationChange location w
    | SwapClick loading => if swap_disabled loading (fst w) then w else swapLocations w
    | ResetClick loading => if loading then w else handleReset w
    end.

Definition run (w : World) (es : list Event) : World := foldl step w es.

(** [handleStartLocationChange] as made by the render in which the form
    showed [shown]: the function reads [formData] from the closure of that
    render. *)
Definition handleStartLocationChangeOf (shown : RouteFormData)
    (location : option Location) (w : World) : World :=
  let '(s, h) := w in
  let s := setSelectedStartLocation location s in
  match location with
  | Some l =>
      let newFormData :=
        {| startLat := lat l; startLng := lng l;
           endLat := endLat shown; endLng := endLng shown |} in
      (setFormData newFormData s, onCoordinateChange newFormData h)
  | None => (s, h)
  end.

(** The form together with the calls of [getCurrentPosition] that its
    start selector has made and the browser has not answered yet.  The
    success callback of a call holds the [onChange] of the render in which
    the button was clicked: [handleStartLocationChange] with the form data
    shown then, which is what is kept here. *)
Record Session := {
  form : World;
  requests : list RouteFormData
}.

(** What happens to the form: an event of the user in the current render,
    a click on the current-location button of the start selector on a
    browser with geolocation, or the answer of the browser to the request
    [k], with a position or with an error. *)
Inductive Input :=
| User (e : Event)
| CurrentLocationClick
| CurrentLocationFix (k : nat) (latitude longitude : number)
| CurrentLocationError (k : nat).

Definition feed (x : Session) (i : Input) : Session :=
  match i with
  | User e => {| form := step (form x) e; requests := requests x |}
  | CurrentLocationClick =>
      {| form := form x;
         requests := requests x ++ [formData (fst (form x))] |}
  | CurrentLocationFix k latitude longitude =>
      match requests x !! k with
      | Some shown =>
          {| form :=
               syncCoordinates
                 (handleStartLocationChangeOf shown
                    (Some (currentLoc latitude longitude)) (form x));
             requests := delete k (requests x) |}
      | None => x
      end
  | CurrentLocationError k =>
      {| form := form x; requests := delete k (requests x) |}
  end.

Definition feeds (x : Session) (l : list Input) : Session := foldl feed x l.

(** The form after its first render, with no request pending. *)
Definition session (h : Host) : Session :=
  {| form := mount h; requests := [] |}.



(** The coordinates of the form are those of the selected locations. *)
Definition selection_matches (s : State) : Prop :=
  (∀ l, selectedStartLocation s = Some l →
        startLat (formData s) = LocationSelector.lat l
        ∧ startLng (formData s) = LocationSelector.lng l)
  ∧ (∀ l, selectedEndLocation s = Some l →
          endLat (formData s) = LocationSelector.lat l
          ∧ endLng (formData s) = LocationSelector.lng l).

(** The two selected locations, when both are there, have different ids. *)
Definition distinct_endpoints (s : State) : Prop :=
  ∀ a b, selectedStartLocation s = Some a → selectedEndLocation s = Some b →
         id a ≠ id b.

Section Catalog.

Variable catalog : list Location.
Variable categories : list string.
Variable toLowerCase : string → string.

(** The calls of [onChange] that the two selectors can make in the state
    [s]: with a location of the open list, with [null], and, for the start
    selector only, with the current location. *)
Definition offered_event (s : State) (e : Event) : Prop :=
  match e with
  | StartChange (Some l) =>
      (∃ st, l ∈ offered catalog categories toLowerCase (startSelectorProps s) st)
      ∨ (∃ latitude longitude, l = currentLoc latitude longitude)
  | EndChange (Some l) =>
      ∃ st, l ∈ offered catalog categories toLowerCase (endSelectorProps s) st
  | _ => True
  end.

(** The same, without the current-location button. *)
Definition catalog_event (s : State) (e : Event) : Prop :=
  match e with
  | StartChange (Some l) =>
      ∃ st, l ∈ offered catalog categories toLowerCase (startSelectorProps s) st
  | EndChange (Some l) =>
      ∃ st, l ∈ offered catalog categories toLowerCase (endSelectorProps s) st
  | _ => True
  end.

(** The worlds the form reaches from [w] through events that satisfy
    [allowed]. *)
Inductive reaches (allowed : State → Event → Prop) (w : World) : World → Prop :=
| reaches_here : reaches allowed w w
| reaches_step w' e :
    reaches allowed w w' → allowed (fst w') e → reaches allowed w (step w' e).

End Catalog.

End FormSession.

(** ** Sample data *)

Module Sample.
Import Js.

Definition zero : number := S754_zero false.
Definition one : number := S754_finite false 1 0.
Definition ninety : number := S754_finite false 45 1.

(** A fix with the given timestamp, heading and speed. *)
Definition fix_at (t : Z) (heading speed : option number)
    : LocationContext.GeolocationPosition :=
  {| LocationContext.coords :=
       {| LocationContext.coords_latitude := one;
          LocationContext.coords_longitude := one;
          LocationContext.coords_accuracy := one;
          LocationContext.coords_heading := heading;
          LocationContext.coords_speed := speed |};
     LocationContext.position_timestamp := t |}.

(** The provider after one [startTracking] on a fresh browser. *)
Definition tracking : LocationContext.World :=
  LocationContext.step (LocationContext.mount LocationContext.browser)
    LocationContext.StartTracking.

Definition corner : Route.Coordinate := {| Route.lat := one; Route.lng := one |}.

(** A route object whose path is empty. *)
Definition pathless : Route.RouteData :=
  {| Route.start := corner; Route.end_ := corner; Route.path_coordinates := [];
     Route.total_distance := zero; Route.estimated_time_minutes := zero |}.

Definition success_envelope (rt : option Route.RouteData) : Http.Envelope :=
  {| Http.success := true; Http.error := None; Http.route := rt |}.

Definition failure_envelope (msg : string) : Http.Envelope :=
  {| Http.success := false; Http.error := Some msg; Http.route := None |}.

Definition respond (status : Z) (data : Http.Envelope) : Http.FetchResult :=
  Http.Resolved {| Http.status := status; Http.body := Http.Parsed data |}.

Definition far_corner : Route.Coordinate := {| Route.lat := ninety; Route.lng := one |}.

(** A route object with a path of two points. *)
Definition straight : Route.RouteData :=
  {| Route.start := corner; Route.end_ := far_corner;
     Route.path_coordinates := [corner; far_corner];
     Route.total_distance := ninety; Route.estimated_time_minutes := one |}.

(** A page that shows the route [straight] from an earlier request. *)
Definition planner_with_route : PlannerPage.State :=
  PlannerPage.setRoute (Some straight) PlannerPage.initial.

Definition library : LocationSelector.Location :=
  {| LocationSelector.id := "library"; LocationSelector.name := "Library";
     LocationSelector.lat := one; LocationSelector.lng := zero;
     LocationSelector.category := "Academic";
     LocationSelector.description := "Central library" |}.

Definition canteen : LocationSelector.Location :=
  {| LocationSelector.id := "canteen"; LocationSelector.name := "Canteen";
     LocationSelector.lat := zero; LocationSelector.lng := one;
     LocationSelector.category := "Dining";
     LocationSelector.description := "Student canteen" |}.

Definition catalog : list LocationSelector.Location := [library; canteen].
Definition categories : list string := ["Academic"; "Dining"].

Definition lower (c : ascii) : ascii :=
  let n := nat_of_ascii c in
  if ((65 <=? n) && (n <=? 90))%nat then ascii_of_nat (n + 32) else c.

(** [toLowerCase] on ASCII text. *)
Fixpoint toLowerCase (s : string) : string :=
  match s with
  | EmptyString => EmptyString
  | String c rest => String (lower c) (toLowerCase rest)
  end.

Definition opened : LocationSelector.State :=
  {| LocationSelector.isOpen := true; LocationSelector.searchTerm := "";
     LocationSelector.selectedCategory := "all" |}.

(** A form with the library chosen as start and the canteen as end, in a
    parent that keeps the coordinates. *)
Definition chosen : RouteForm.World :=
  RouteForm.handleEndLocationChange (Some canteen)
    (RouteForm.handleStartLocationChange (Some library)
       ({| RouteForm.formData := RouteForm.defaultData;
           RouteForm.selectedStartLocation := None;
           RouteForm.selectedEndLocation := None |},
        Some RouteForm.defaultData)).

End Sample.

(** * Properties *)

(** ** Map clicks *)

Section MapClick.
Import Js Route PlannerPage.

(** C10. A map click handled while an endpoint is pending placement
    updates only that endpoint's latitude and longitude and leaves the
    other endpoint's coordinates unchanged; with no endpoint pending no
    coordinate changes; in every case the pending selection is [null]
    after the click, and no other cell of the page changes. *)
Theorem handleMapClick_frame (lat lng : number) (s : State) :
  let s' := handleMapClick lat lng s in
  selectedLocation s' = None
  ∧ match selectedLocation s with
    | Some Start =>
        startLat (coordinates s') = lat ∧ startLng (coordinates s') = lng
        ∧ endLat (coordinates s') = endLat (coordinates s)
        ∧ endLng (coordinates s') = endLng (coordinates s)
    | Some End =>
        endLat (coordinates s') = lat ∧ endLng (coordinates s') = lng
        ∧ startLat (coordinates s') = startLat (coordinates s)
        ∧ startLng (coordinates s') = startLng (coordinates s)
    | None => coordinates s' = coordinates s
    end
  ∧ route s' = route s ∧ loading s' = loading s ∧ error s' = error s
  ∧ isFullscreen s' = isFullscreen s ∧ showRouteForm s' = showRouteForm s
  ∧ showDirections s' = showDirections s.
Proof.
  unfold handleMapClick.
  destruct (selectedLocation s) as [[|]|]; cbn; repeat split; reflexivity.
Qed.

End MapClick.

(** ** Swapping the endpoints of the form *)

Section Swap.
Import Js Route LocationSelector RouteForm.

Lemma swap_disabled_false (loading : bool) (s : State) :
  swap_disabled loading s = false ↔
  loading = false ∧ is_Some (selectedStartLocation s)
  ∧ is_Some (selectedEndLocation s).
Proof.
  unfold swap_disabled.
  rewrite !orb_false_iff, !negb_false_iff, !bool_decide_eq_true.
  tauto.
Qed.

Lemma swapLocations_selected (w : World) :
  selectedStartLocation (fst (swapLocations w)) = selectedEndLocation (fst w)
  ∧ selectedEndLocation (fst (swapLocations w)) = selectedStartLocation (fst w).
Proof. destruct w as [s h]. split; reflexivity. Qed.

Lemma swapLocations_coherent (w : World) :
  coherent (swapLocations w).
Proof.
  destruct w as [s [c|]]; intros c' Hc; cbn in *; congruence.
Qed.

Lemma syncCoordinates_coherent (w : World) :
  coherent w → syncCoordinates w = w.
Proof.
  destruct w as [[fd a b] [c|]]; unfold coherent, syncCoordinates; cbn; intros H.
  - rewrite (H c eq_refl). reflexivity.
  - reflexivity.
Qed.

Lemma swapLocations_twice (w : World) :
  coherent w → swapLocations (swapLocations w) = w.
Proof.
  destruct w as [[[a b c d] from to] [h|]]; unfold coherent; cbn; intros H.
  - rewrite <- (H h eq_refl). reflexivity.
  - reflexivity.
Qed.

(** The handlers of the form and the effect keep the form on the
    parent's coordinates. *)
Lemma handlers_coherent (w : World) (location : option Location) :
  coherent (syncCoordinates w)
  ∧ (coherent w → coherent (handleStartLocationChange location w))
  ∧ (coherent w → coherent (handleEndLocationChange location w))
  ∧ coherent (handleReset w).
Proof.
  destruct w as [s [c|]]; unfold coherent; repeat split;
    try (intros c' Hc; cbn in *; congruence);
    intros H c' Hc; destruct location; cbn in *;
    try congruence; apply H; exact Hc.
Qed.

(** C7. Swap exchanges the two selections and the two coordinate pairs
    in one step; the button runs the handler exactly when no request is
    in flight and both endpoints are selected; and in every such state
    two swaps give back the prior selections and coordinates, of the form
    and of its parent. *)
Theorem swap_involution (loading : bool) (w : World) :
  coherent w →
  swap_disabled loading (fst w) = false →
  let w1 := clickSwap loading w in
  selectedStartLocation (fst w1) = selectedEndLocation (fst w)
  ∧ selectedEndLocation (fst w1) = selectedStartLocation (fst w)
  ∧ startLat (formData (fst w1)) = endLat (formData (fst w))
  ∧ startLng (formData (fst w1)) = endLng (formData (fst w))
  ∧ endLat (formData (fst w1)) = startLat (formData (fst w))
  ∧ endLng (formData (fst w1)) = startLng (formData (fst w))
  ∧ (∀ c, snd w = Some c → snd w1 = Some (formData (fst w1)))
  ∧ clickSwap loading w1 = w
  ∧ (∀ l (v : World), swap_disabled l (fst v) = false ↔
            l = false ∧ is_Some (selectedStartLocation (fst v))
            ∧ is_Some (selectedEndLocation (fst v)))
  ∧ (∀ l (v : World), swap_disabled l (fst v) = true → clickSwap l v = v).
Proof.
  intros Hco Hen w1.
  assert (Hw1 : w1 = swapLocations w).
  { unfold w1, clickSwap. rewrite Hen.
    apply syncCoordinates_coherent, swapLocations_coherent. }
  assert (Hen1 : swap_disabled loading (fst w1) = false).
  { rewrite Hw1. apply swap_disabled_false. apply swap_disabled_false in Hen.
    destruct (swapLocations_selected w) as [-> ->]. tauto. }
  repeat match goal with |- _ ∧ _ => split end.
  - rewrite Hw1. apply swapLocations_selected.
  - rewrite Hw1. apply swapLocations_selected.
  - rewrite Hw1. destruct w as [s h]. reflexivity.
  - rewrite Hw1. destruct w as [s h]. reflexivity.
  - rewrite Hw1. destruct w as [s h]. reflexivity.
  - rewrite Hw1. destruct w as [s h]. reflexivity.
  - intros c Hc. rewrite Hw1. destruct w as [s h]. cbn in *. subst h. reflexivity.
  - unfold clickSwap at 1. rewrite Hen1, Hw1.
    rewrite syncCoordinates_coherent by apply swapLocations_coherent.
    apply swapLocations_twice, Hco.
  - intros l v. apply swap_disabled_false.
  - intros l v Hd. unfold clickSwap. rewrite Hd. reflexivity.
Qed.

End Swap.

(** ** What the two selectors of the form offer *)

Section Offer.
Import Js LocationSelector RouteForm.

Variable catalog : list Location.
Variable categories : list string.
Variable toLowerCase : string → string.

Lemma obj_set_values {A} (key : string) (v : list A) (obj : list (string * list A)) (x : A) :
  x ∈ concat (map snd (obj_set key v obj)) →
  x ∈ v ∨ x ∈ concat (map snd obj).
Proof.
  induction obj as [|[k w] rest IH]; cbn.
  - rewrite app_nil_r. auto.
  - case_bool_decide; cbn; rewrite !elem_of_app.
    + tauto.
    + intros [Hw|Hr]; [tauto|]. destruct (IH Hr); tauto.
Qed.

Lemma grouped_from_filtered (p : Props) (st : LocationSelector.State) (x : Location) :
  x ∈ concat (map snd (groupedLocations catalog categories toLowerCase p st)) →
  x ∈ filteredLocations catalog toLowerCase p st.
Proof.
  unfold groupedLocations.
  set (F := filteredLocations catalog toLowerCase p st).
  assert (Hgen : ∀ cs acc,
    (∀ y, y ∈ concat (map snd acc) → y ∈ F) →
    ∀ y, y ∈ concat (map snd
               (foldl (λ acc c, obj_set c (filter (λ loc, category loc = c) F) acc)
                      acc cs)) → y ∈ F).
  { induction cs as [|c cs IH]; intros acc Hacc y; cbn; [apply Hacc|].
    apply IH. intros z Hz. apply obj_set_values in Hz as [Hz|Hz].
    - apply list_elem_of_filter in Hz. tauto.
    - apply Hacc, Hz. }
  apply Hgen. cbn. intros y Hy. inversion Hy.
Qed.

Lemma offered_not_excluded (p : Props) (st : LocationSelector.State) (x : Location) :
  x ∈ offered catalog categories toLowerCase p st →
  x ∈ catalog ∧ Some (id x) ≠ excludeLocationId p.
Proof.
  unfold offered. destruct (isOpen st); [|intros H; inversion H].
  intros H. apply grouped_from_filtered in H.
  unfold filteredLocations, locations in H.
  apply list_elem_of_filter in H as [_ H].
  apply list_elem_of_filter in H. tauto.
Qed.

(** C8. Whatever is selected, the location chosen as one endpoint is not
    among the catalog locations the other selector offers, and what a
    selector offers comes from the catalog; the current-location option
    is rendered exactly when the selector is open and its
    [allowCurrentLocation] flag is set, a flag that is off by default,
    that the form sets for the start selector and clears for the end
    selector. *)
Theorem selectors_exclude_other_endpoint (s : RouteForm.State)
    (st : LocationSelector.State) :
  (∀ chosen loc,
      selectedStartLocation s = Some chosen →
      loc ∈ offered catalog categories toLowerCase (endSelectorProps s) st →
      loc ∈ catalog ∧ id loc ≠ id chosen)
  ∧ (∀ chosen loc,
      selectedEndLocation s = Some chosen →
      loc ∈ offered catalog categories toLowerCase (startSelectorProps s) st →
      loc ∈ catalog ∧ id loc ≠ id chosen)
  ∧ (∀ p, currentLocationOffered p st = isOpen st && allowCurrentLocation p)
  ∧ (∀ v e, allowCurrentLocation (props v None e) = false)
  ∧ allowCurrentLocation (startSelectorProps s) = true
  ∧ allowCurrentLocation (endSelectorProps s) = false
  ∧ currentLocationOffered (startSelectorProps s) st = isOpen st
  ∧ currentLocationOffered (endSelectorProps s) st = false.
Proof.
  repeat match goal with |- _ ∧ _ => split end.
  - intros chosen loc Hsel Hoff.
    apply offered_not_excluded in Hoff as [Hin Hne]. split; [exact Hin|].
    cbn in Hne. rewrite Hsel in Hne. cbn in Hne. congruence.
  - intros chosen loc Hsel Hoff.
    apply offered_not_excluded in Hoff as [Hin Hne]. split; [exact Hin|].
    cbn in Hne. rewrite Hsel in Hne. cbn in Hne. congruence.
  - reflexivity.
  - reflexivity.
  - reflexivity.
  - reflexivity.
  - unfold currentLocationOffered. cbn. apply andb_true_r.
  - unfold currentLocationOffered. cbn. apply andb_false_r.
Qed.

End Offer.

(** ** Position samples *)

Section Samples.
Import Js LocationContext.

Lemma or_undefined_zero (x : number) :
  is_zero x = true → or_undefined (Some x) = None.
Proof. destruct x; cbn; congruence. Qed.

Lemma or_undefined_nonzero (x : number) :
  is_zero x = false → is_nan x = false → or_undefined (Some x) = Some x.
Proof. destruct x; cbn; congruence. Qed.

(** The remaining falsy inputs: a NaN and a [null] are dropped as well. *)
Lemma or_undefined_absent (v : option number) :
  or_undefined v = None ↔
  v = None ∨ ∃ x, v = Some x ∧ (is_zero x = true ∨ is_nan x = true).
Proof.
  destruct v as [x|]; cbn.
  - destruct x; cbn; split; intros H; try congruence; eauto;
      destruct H as [H|(y & Hy & [H|H])]; try congruence;
      injection Hy as <-; cbn in H; congruence.
  - tauto.
Qed.

(** C9, as the callback implements it. Every position the success
    callback receives is stored.  A heading of zero, of either sign, is
    stored as absent, and so is a heading that is NaN, which is not zero,
    and a heading that is [null]; every other heading is stored unchanged.
    The same holds of the speed. *)
Theorem successCallback_zero_dropped (position : GeolocationPosition) (s : State) :
  ∃ d, currentLocation (successCallback position s) = Some d
  ∧ (coords_heading (coords position) = None → heading d = None)
  ∧ (∀ x, coords_heading (coords position) = Some x →
       (is_zero x = true → heading d = None)
       ∧ (is_nan x = true → heading d = None)
       ∧ (is_zero x = false → is_nan x = false → heading d = Some x))
  ∧ (coords_speed (coords position) = None → speed d = None)
  ∧ (∀ x, coords_speed (coords position) = Some x →
       (is_zero x = true → speed d = None)
       ∧ (is_nan x = true → speed d = None)
       ∧ (is_zero x = false → is_nan x = false → speed d = Some x)).
Proof.
  exists (locationData_of position). split; [reflexivity|]. cbn.
  repeat match goal with |- _ ∧ _ => split end;
    try (intros ->; reflexivity);
    intros x ->; repeat split;
    auto using or_undefined_zero, or_undefined_nonzero;
    intros Hn; apply or_undefined_absent; eauto.
Qed.

(** The samples a run of callbacks leaves in [currentLocation], one per
    delivered position. *)
Lemma successCallback_stores (position : GeolocationPosition) (s : State) :
  currentLocation (successCallback position s) = Some (locationData_of position).
Proof. reflexivity. Qed.

Lemma retained_timestamps (ps : list GeolocationPosition) (s : State) :
  timestamp <$> retained s ps = position_timestamp <$> ps.
Proof.
  revert s. induction ps as [|p ps IH]; intros s; cbn; [reflexivity|].
  f_equal. apply IH.
Qed.

(** C6, as the provider implements it. Every delivered position is
    accepted whatever its timestamp: it replaces the retained sample, so
    after each delivery the retained timestamp is that of the position
    just delivered.  The retained timestamps are therefore strictly
    increasing exactly when the timestamps the platform delivers are. *)
Theorem latest_sample_wins (ps : list GeolocationPosition) (s : State) :
  (∀ p s0, currentLocation (successCallback p s0) = Some (locationData_of p)
           ∧ timestamp (locationData_of p) = position_timestamp p)
  ∧ timestamp <$> retained s ps = position_timestamp <$> ps
  ∧ (StronglySorted Z.lt (position_timestamp <$> ps) ↔
     StronglySorted Z.lt (timestamp <$> retained s ps)).
Proof.
  split; [|split].
  - intros p s0. split; reflexivity.
  - apply retained_timestamps.
  - rewrite retained_timestamps. tauto.
Qed.

End Samples.

(** ** The tracking subscription *)

Section Subscription.
Import Js LocationContext.

Lemma watch_replaced (n old : Z) :
  n ≠ old → ({[ n ]} ∪ {[ old ]}) ∖ {[ old ]} = ({[ n ]} : gset Z).
Proof.
  intros Hne. apply set_eq. intros x.
  rewrite elem_of_difference, elem_of_union, !elem_of_singleton.
  split.
  - intros [[Hx|Hx] Hn]; [exact Hx | contradiction].
  - intros ->. auto.
Qed.

Lemma watch_cleared_twice (id : Z) :
  (({[ id ]} : gset Z) ∖ {[ id ]}) ∖ {[ id ]} = ∅.
Proof.
  apply set_eq. intros x.
  rewrite !elem_of_difference, elem_of_singleton, elem_of_empty. tauto.
Qed.

Lemma watchPosition_fresh (nav : Navigator) :
  fresh_ids nav → fresh_ids (snd (watchPosition nav)).
Proof.
  unfold fresh_ids. cbn. intros H id Hid.
  apply elem_of_union in Hid as [Hid|Hid].
  - apply elem_of_singleton in Hid. lia.
  - apply H in Hid. lia.
Qed.

Lemma clearWatch_fresh (id : Z) (nav : Navigator) :
  fresh_ids nav → fresh_ids (clearWatch id nav).
Proof.
  unfold fresh_ids. cbn. intros H i Hi.
  apply elem_of_difference in Hi as [Hi _]. auto.
Qed.

Lemma cleanup_fresh (captured : option Z) (nav : Navigator) :
  fresh_ids nav → fresh_ids (cleanup captured nav).
Proof. destruct captured; cbn; auto using clearWatch_fresh. Qed.

Lemma checkLocationPermission_browser (w : World) :
  watches (snd (checkLocationPermission w)) = watches (snd w)
  ∧ next_watch (snd (checkLocationPermission w)) = next_watch (snd w)
  ∧ geolocation (snd (checkLocationPermission w)) = geolocation (snd w).
Proof.
  destruct w as [s nav]. cbn. destruct (geolocation nav) eqn:Hg; cbn; auto.
Qed.

Lemma checkLocationPermission_watchId (w : World) :
  watchId (fst (checkLocationPermission w)) = watchId (fst w).
Proof. destruct w as [s nav]. cbn. destruct (geolocation nav); reflexivity. Qed.

Lemma checkLocationPermission_fresh (w : World) :
  fresh_ids (snd w) → fresh_ids (snd (checkLocationPermission w)).
Proof.
  unfold fresh_ids.
  destruct (checkLocationPermission_browser w) as (-> & -> & _). auto.
Qed.

Lemma checkLocationPermission_one_watch (w : World) :
  one_watch w → one_watch (checkLocationPermission w).
Proof.
  unfold one_watch.
  destruct (checkLocationPermission_browser w) as (-> & _ & _).
  rewrite checkLocationPermission_watchId. auto.
Qed.

(** The callbacks of the browser change neither [watchId] nor the
    registered watches. *)
Lemma handle_callback (rendered : option Z) (w : World) (e : Event) :
  e ≠ StartTracking → e ≠ StopTracking →
  watchId (fst (handle rendered w e)) = watchId (fst w)
  ∧ watches (snd (handle rendered w e)) = watches (snd w)
  ∧ next_watch (snd (handle rendered w e)) = next_watch (snd w)
  ∧ geolocation (snd (handle rendered w e)) = geolocation (snd w).
Proof.
  intros H1 H2. destruct e; try contradiction; cbn;
    case_decide; repeat split.
Qed.

Lemma handle_fresh (rendered : option Z) (w : World) (e : Event) :
  fresh_ids (snd w) → fresh_ids (snd (handle rendered w e)).
Proof.
  destruct w as [s nav]. intros H. destruct e; cbn.
  - destruct (geolocation nav); cbn; [|exact H].
    apply (watchPosition_fresh nav H).
  - destruct rendered; cbn; [apply clearWatch_fresh|]; exact H.
  - case_decide; exact H.
  - case_decide; exact H.
  - case_decide; exact H.
  - case_decide; exact H.
Qed.

Lemma commit_fresh (captured : option Z) (w : World) :
  fresh_ids (snd w) → fresh_ids (snd (commit captured w)).
Proof.
  intros H. unfold commit. case_decide; [exact H|].
  apply checkLocationPermission_fresh. cbn. apply cleanup_fresh, H.
Qed.

Lemma act_fresh (m : Mounted) (a : Action) :
  fresh_ids (nav m) → fresh_ids (nav (act m a)).
Proof.
  destruct a; unfold nav; cbn; [apply handle_fresh | apply commit_fresh].
Qed.

Lemma step_fresh (w : World) (e : Event) :
  fresh_ids (snd w) → fresh_ids (snd (step w e)).
Proof. intros H. apply commit_fresh, handle_fresh, H. Qed.

Lemma next_watch_unregistered (nav : Navigator) :
  fresh_ids nav → next_watch nav ∉ watches nav.
Proof. intros H Hin. apply H in Hin. lia. Qed.

Lemma startTracking_supported (s : State) (nav : Navigator) :
  geolocation nav = true →
  startTracking (s, nav) =
    (setWatchId (Some (next_watch nav)) (setIsTracking true (setError None s)),
     snd (watchPosition nav)).
Proof. intros H. unfold startTracking. rewrite H. reflexivity. Qed.

(** A [startTracking] and the render after it, on a provider whose
    registered watches are the one in [watchId]: the new watch is the only
    one left, and the permission query has been sent again. *)
Lemma step_startTracking (s : State) (nav : Navigator) :
  geolocation nav = true → fresh_ids nav → one_watch (s, nav) →
  step (s, nav) StartTracking =
    (setWatchId (Some (next_watch nav)) (setIsTracking true (setError None s)),
     {| geolocation := geolocation nav;
        watches := {[ next_watch nav ]};
        next_watch := next_watch nav + 1;
        queries := S (queries nav) |}).
Proof.
  intros Hgeo Hfresh Hone. unfold step, settled, act, handle. cbn [fst snd world rendered].
  rewrite startTracking_supported by exact Hgeo.
  unfold commit. cbn [fst snd watchId setWatchId].
  pose proof (next_watch_unregistered nav Hfresh) as Hnew.
  unfold one_watch in Hone. cbn [fst snd] in Hone.
  rewrite decide_False.
  2:{ intros Heq. rewrite <- Heq in Hone. apply Hnew. rewrite Hone.
      apply elem_of_singleton. reflexivity. }
  unfold checkLocationPermission, cleanup, watchPosition.
  destruct (watchId s) as [old|]; cbn; rewrite Hgeo; cbn; f_equal.
  - unfold query, clearWatch. cbn. f_equal. rewrite Hone in Hnew |- *.
    apply watch_replaced. intros Heq. apply Hnew, elem_of_singleton, Heq.
  - unfold query. cbn. f_equal. rewrite Hone. apply union_empty_r_L.
Qed.

Lemma step_callback (w : World) (e : Event) :
  watchId (fst (handle (watchId (fst w)) w e)) = watchId (fst w) →
  step w e = handle (watchId (fst w)) w e.
Proof.
  intros H. unfold step, settled, act, commit. cbn [world rendered].
  rewrite decide_True by exact H. reflexivity.
Qed.

Lemma step_one_watch (w : World) (e : Event) :
  fresh_ids (snd w) → one_watch w → one_watch (step w e).
Proof.
  destruct w as [s nav]. intros Hfresh Hone. destruct e.
  - destruct (geolocation nav) eqn:Hgeo.
    + rewrite step_startTracking by assumption. reflexivity.
    + rewrite step_callback; cbn; unfold startTracking; rewrite Hgeo;
        [exact Hone | reflexivity].
  - unfold step, settled, act, handle, stopTracking, one_watch in *.
    cbn [fst snd world rendered] in *.
    destruct (watchId s) as [id|] eqn:Hw.
    + unfold commit. cbn [fst snd watchId setIsTracking setWatchId].
      rewrite decide_False by discriminate.
      apply checkLocationPermission_one_watch. unfold one_watch. cbn.
      rewrite Hone. apply watch_cleared_twice.
    + unfold commit. cbn [fst snd watchId setIsTracking].
      rewrite decide_True by exact Hw.
      cbn. rewrite Hw. exact Hone.
  - rewrite step_callback by (cbn; case_decide; reflexivity).
    cbn. case_decide; exact Hone.
  - rewrite step_callback by (cbn; case_decide; reflexivity).
    cbn. case_decide; exact Hone.
  - rewrite step_callback by (cbn; case_decide; reflexivity).
    cbn. case_decide; exact Hone.
  - rewrite step_callback by (cbn; case_decide; reflexivity).
    cbn. case_decide; exact Hone.
Qed.

(** When every event is followed by its render, the provider holds at
    most one registered watch, and it is the one whose id is in
    [watchId]. *)
Lemma run_one_watch (es : list Event) (w : World) :
  fresh_ids (snd w) → one_watch w →
  fresh_ids (snd (run w es)) ∧ one_watch (run w es).
Proof.
  revert w. induction es as [|e es IH]; intros w Hf Ho; cbn; [auto|].
  apply IH; [apply step_fresh, Hf | apply step_one_watch; assumption].
Qed.

Lemma mount_one_watch (es : list Event) :
  let w := run (mount browser) es in
  one_watch w ∧ (size (watches (snd w)) ≤ 1)%nat.
Proof.
  cbv zeta.
  destruct (run_one_watch es (mount browser)) as [_ H].
  - intros id Hid. cbn in Hid. set_solver.
  - reflexivity.
  - split; [exact H|]. rewrite H.
    destruct (watchId (fst (run (mount browser) es))).
    + rewrite size_singleton. lia.
    + rewrite size_empty. lia.
Qed.

(** The explicit way to idle does release the watch, when it is called on
    a rendered provider. *)
Lemma stopTracking_releases (w : World) :
  one_watch w →
  let w' := step w StopTracking in
  isTracking (fst w') = false ∧ watchId (fst w') = None
  ∧ watches (snd w') = ∅.
Proof.
  destruct w as [s nav]. unfold one_watch. cbn [fst snd]. intros Hone. cbv zeta.
  unfold step, settled, act, handle, stopTracking. cbn [fst snd world rendered].
  destruct (watchId s) as [id|] eqn:Hw.
  - unfold commit. cbn [fst snd watchId setIsTracking setWatchId].
    rewrite decide_False by discriminate.
    destruct (checkLocationPermission_browser
                (setIsTracking false (setWatchId None s),
                 cleanup (Some id) (clearWatch id nav))) as (-> & _ & _).
    rewrite checkLocationPermission_watchId.
    split; [cbn; destruct (geolocation nav); reflexivity|].
    cbn. rewrite Hone. split; [reflexivity|]. apply watch_cleared_twice.
  - unfold commit. cbn [fst snd watchId setIsTracking].
    rewrite decide_True by exact Hw.
    cbn. rewrite Hw. auto.
Qed.

Lemma errorMessage_codes :
  errorMessage PERMISSION_DENIED = "Location access denied by user"
  ∧ errorMessage POSITION_UNAVAILABLE = "Location information unavailable"
  ∧ errorMessage TIMEOUT = "Location request timed out".
Proof. repeat split. Qed.

Lemma step_error (s : State) (nav : Navigator) (id code : Z) :
  id ∈ watches nav →
  step (s, nav) (PositionError id code) = (errorCallback code s, nav).
Proof.
  intros Hid.
  assert (H : handle (watchId s) (s, nav) (PositionError id code)
              = (errorCallback code s, nav)).
  { cbn. rewrite decide_True by exact Hid. reflexivity. }
  rewrite step_callback; cbn [fst]; rewrite H; reflexivity.
Qed.

Lemma step_position (s : State) (nav : Navigator) (id : Z)
    (position : GeolocationPosition) :
  id ∈ watches nav →
  step (s, nav) (Position id position) = (successCallback position s, nav).
Proof.
  intros Hid.
  assert (H : handle (watchId s) (s, nav) (Position id position)
              = (successCallback position s, nav)).
  { cbn. rewrite decide_True by exact Hid. reflexivity. }
  rewrite step_callback; cbn [fst]; rewrite H; reflexivity.
Qed.

(** After an event in a task of its own the provider is rendered again. *)
Lemma step_settled (w : World) (e : Event) :
  act (act (settled w) (Call e)) Render = settled (step w e).
Proof.
  unfold step, settled, act. cbn [world rendered]. f_equal.
  unfold commit. case_decide as Hd.
  - cbn [fst]. congruence.
  - rewrite checkLocationPermission_watchId. reflexivity.
Qed.

(** [run] is the run of [act] in which every event is followed by its
    render, and in such a run every call finds the provider rendered. *)
Lemma run_unbatch (es : list Event) (w : World) :
  acts (settled w) (unbatch es) = settled (run w es)
  ∧ unbatched (settled w) (unbatch es) = true.
Proof.
  revert w. induction es as [|e es IH]; intros w; [split; reflexivity|].
  change (unbatch (e :: es)) with (Call e :: Render :: unbatch es).
  cbn [acts foldl unbatched]. rewrite step_settled.
  destruct (IH (step w e)) as [Hrun Hfound]. split.
  - exact Hrun.
  - rewrite Hfound.
    assert (Hcall : finds_rendered (settled w) (Call e) = true).
    { destruct e; try reflexivity; apply bool_decide_eq_true; reflexivity. }
    rewrite Hcall. reflexivity.
Qed.

(** C1, evaluated on the provider. An error delivered on the watch
    of a tracking provider sets the provider idle and records the message
    of the error code.  The callback registers nothing and clears nothing:
    there is no retry by the provider, and the watch stays registered with
    its id in [watchId], so that a position the browser delivers on it
    afterwards is still stored.  A later [startTracking] is accepted: it
    clears the error, sets the provider tracking, and leaves the new watch
    as the only registered one. *)
Theorem errorCallback_keeps_watch (w : World) (id code : Z)
    (position : GeolocationPosition) :
  geolocation (snd w) = true →
  fresh_ids (snd w) →
  isTracking (fst w) = true →
  watchId (fst w) = Some id →
  watches (snd w) = {[ id ]} →
  let w1 := step w (PositionError id code) in
  let w2 := step w1 StartTracking in
  isTracking (fst w1) = false
  ∧ error (fst w1) = Some (errorMessage code)
  ∧ watchId (fst w1) = Some id
  ∧ snd w1 = snd w
  ∧ id ∈ watches (snd w1)
  ∧ currentLocation (fst (step w1 (Position id position)))
    = Some (locationData_of position)
  ∧ isTracking (fst w2) = true
  ∧ error (fst w2) = None
  ∧ watchId (fst w2) = Some (next_watch (snd w))
  ∧ watches (snd w2) = {[ next_watch (snd w) ]}.
Proof.
  destruct w as [s nav]. cbn [fst snd]. intros Hgeo Hfresh Htr Hw Hreg.
  assert (Hid : id ∈ watches nav) by (rewrite Hreg; set_solver).
  cbv zeta. rewrite step_error by exact Hid.
  rewrite step_position by exact Hid.
  rewrite step_startTracking;
    [| exact Hgeo | exact Hfresh | unfold one_watch; cbn; rewrite Hw; exact Hreg].
  cbn. repeat match goal with |- _ ∧ _ => split end; auto.
Qed.

(** C2, as the provider implements it. Called while tracking is active,
    the handler [startTracking] registers a new watch next to the active
    one and puts its id in [watchId]: two watches are registered until the
    next render.  It leaves the provider tracking with no error and with
    the position and the permission flag as they were.  The render that
    follows clears the watch of the previous render, so that one watch is
    left, the new one, and it sends the permission query again, whose
    answer then replaces the permission flag.  A second call before that
    render changes nothing in what the provider exposes, registers a third
    watch and overwrites [watchId]: after the render two watches are left,
    and the id of the first of them is no longer held anywhere. *)
Theorem startTracking_replaces_watch (m : Mounted) (id : Z) :
  geolocation (nav m) = true →
  fresh_ids (nav m) →
  isTracking (cells m) = true →
  watchId (cells m) = Some id →
  rendered m = Some id →
  watches (nav m) = {[ id ]} →
  let n := next_watch (nav m) in
  let h := act m (Call StartTracking) in
  let m1 := act h Render in
  let hh := act h (Call StartTracking) in
  let m2 := act hh Render in
  n ≠ id
  ∧ watches (nav h) = {[ n ]} ∪ {[ id ]}
  ∧ size (watches (nav h)) = 2%nat
  ∧ isTracking (cells h) = true
  ∧ error (cells h) = None
  ∧ currentLocation (cells h) = currentLocation (cells m)
  ∧ hasLocationPermission (cells h) = hasLocationPermission (cells m)
  ∧ watchId (cells h) = Some n
  ∧ queries (nav h) = queries (nav m)
  ∧ cells m1 = cells h
  ∧ rendered m1 = Some n
  ∧ watches (nav m1) = {[ n ]}
  ∧ queries (nav m1) = S (queries (nav m))
  ∧ (∀ granted,
       hasLocationPermission (cells (act m1 (Call (PermissionAnswer granted))))
       = granted)
  ∧ exposed (cells hh) = exposed (cells h)
  ∧ watchId (cells hh) = Some (n + 1)
  ∧ watches (nav hh) = {[ n + 1 ]} ∪ ({[ n ]} ∪ {[ id ]})
  ∧ rendered m2 = Some (n + 1)
  ∧ watches (nav m2) = {[ n + 1 ]} ∪ {[ n ]}
  ∧ size (watches (nav m2)) = 2%nat.
Proof.
  destruct m as [[s b] r]. unfold cells, nav. cbn [world rendered fst snd].
  intros Hgeo Hfresh Htr Hw -> Hreg.
  assert (Hne : next_watch b ≠ id).
  { intros Heq. apply (next_watch_unregistered b Hfresh).
    rewrite Hreg, Heq. apply elem_of_singleton. reflexivity. }
  assert (Hlt : id < next_watch b).
  { apply Hfresh. rewrite Hreg. apply elem_of_singleton. reflexivity. }
  cbv zeta. unfold act. cbn [world rendered handle fst snd].
  rewrite startTracking_supported by exact Hgeo.
  cbn [world rendered handle fst snd].
  rewrite startTracking_supported by exact Hgeo.
  unfold commit. cbn [fst snd watchId setWatchId].
  rewrite (decide_False (P := Some (next_watch b) = Some id)) by congruence.
  rewrite (decide_False (P := Some (next_watch b + 1) = Some id))
    by (intros [= Heq]; lia).
  unfold checkLocationPermission, cleanup, clearWatch, watchPosition.
  cbn. rewrite Hgeo. cbn. rewrite Hreg.
  assert (H1 : ({[ next_watch b ]} ∪ {[ id ]}) ∖ {[ id ]}
               = ({[ next_watch b ]} : gset Z)) by (apply watch_replaced, Hne).
  assert (H2 : ({[ next_watch b + 1 ]} ∪ ({[ next_watch b ]} ∪ {[ id ]})) ∖ {[ id ]}
               = ({[ next_watch b + 1 ]} ∪ {[ next_watch b ]} : gset Z)).
  { apply set_eq. intros x.
    rewrite elem_of_difference, !elem_of_union, !elem_of_singleton.
    split; [intros [[Hx|[Hx|Hx]] Hn]; auto; contradiction | intros [->| ->]; split; auto; lia]. }
  rewrite H1, H2.
  repeat match goal with |- _ ∧ _ => split end; auto.
  - rewrite size_union, !size_singleton; [reflexivity|].
    apply disjoint_singleton_l. rewrite elem_of_singleton. exact Hne.
  - rewrite size_union, !size_singleton; [reflexivity|].
    apply disjoint_singleton_l. rewrite elem_of_singleton. lia.
Qed.

End Subscription.

(** ** Strings of the error messages *)

Section Messages.
Import Js.

Lemma occurs_append (c : ascii) (a b : string) :
  occurs c (a ++ b) = occurs c a || occurs c b.
Proof.
  induction a as [|x a IH]; [reflexivity|].
  change (String x a ++ b) with (String x (a ++ b)). cbn.
  rewrite IH. apply orb_assoc.
Qed.

Lemma index_absent_head (c : ascii) (rest s : string) :
  occurs c s = false → index 0 (String c rest) s = None.
Proof.
  induction s as [|b s IH]; cbn; [reflexivity|].
  intros H. apply orb_false_iff in H as [Hb Hs].
  apply bool_decide_eq_false in Hb.
  destruct (ascii_dec c b) as [->|_]; [contradiction|].
  rewrite (IH Hs). reflexivity.
Qed.

Lemma includes_absent_head (c : ascii) (rest s : string) :
  occurs c s = false → includes s (String c rest) = false.
Proof. intros H. unfold includes. rewrite index_absent_head; auto. Qed.

Lemma occurs_uint (d : Decimal.uint) :
  occurs "F" (NilEmpty.string_of_uint d) = false.
Proof. induction d; cbn; auto. Qed.

Lemma occurs_uint_zero (d : Decimal.uint) :
  occurs "F" (NilZero.string_of_uint d) = false.
Proof. destruct d; try reflexivity; exact (occurs_uint _). Qed.

Lemma occurs_show_int (n : Z) : occurs "F" (show_int n) = false.
Proof.
  unfold show_int, NilZero.string_of_int.
  destruct (Z.to_int n) as [d|d]; [apply occurs_uint_zero|].
  cbn [occurs]. rewrite occurs_uint_zero. reflexivity.
Qed.

End Messages.

(** ** Route requests on the page with live navigation *)

Section Submit.
Import Js Route Http NavigatorPage.

Lemma http_error_message_kept (n : Z) :
  includes (http_error_message n) "Failed to fetch" = false.
Proof.
  apply includes_absent_head. unfold http_error_message.
  rewrite occurs_append, occurs_show_int. reflexivity.
Qed.

Lemma http_error_message_distinct (n : Z) :
  http_error_message n ≠ cannot_connect_message
  ∧ http_error_message n ≠ invalid_response_message
  ∧ http_error_message n ≠ invalid_url_message
  ∧ http_error_message n ≠ unexpected_message.
Proof. repeat split; discriminate. Qed.

Ltac run_submit :=
  unfold handleRouteSubmit, try_catch_finally, submit_block;
  unfold mbind, Try_bind, bind, set, await_fetch, json, ret, throw; cbn.

Lemma submit_catch_records (err : Thrown) (s : State) :
  ∃ m, error (submit_catch err s) = Some m
       ∧ routeData (submit_catch err s) = routeData s
       ∧ isLoading (submit_catch err s) = isLoading s.
Proof.
  unfold submit_catch.
  repeat match goal with |- context [if ?b then _ else _] => destruct b end;
    cbn; eauto.
Qed.

Lemma submit_rejected (formData : RouteFormData) (err : Thrown) (s : State) :
  handleRouteSubmit formData (Rejected err) s =
  setIsLoading false (submit_catch err (setError None (setIsLoading true s))).
Proof. reflexivity. Qed.

Lemma submit_not_ok (formData : RouteFormData) (r : Response) (s : State) :
  ok r = false →
  handleRouteSubmit formData (Resolved r) s =
  setIsLoading false
    (setError (Some (http_error_message (status r)))
       (setError None (setIsLoading true s))).
Proof.
  intros H. run_submit. rewrite H. cbn.
  unfold submit_catch. cbn.
  rewrite http_error_message_kept. reflexivity.
Qed.

Lemma submit_malformed (formData : RouteFormData) (r : Response) (m : string)
    (s : State) :
  ok r = true → body r = Malformed m →
  handleRouteSubmit formData (Resolved r) s =
  setIsLoading false
    (setError (Some invalid_response_message)
       (setError None (setIsLoading true s))).
Proof. intros H Hb. run_submit. rewrite H, Hb. reflexivity. Qed.

Lemma submit_null (formData : RouteFormData) (r : Response) (m : string)
    (s : State) :
  ok r = true → body r = Null m →
  handleRouteSubmit formData (Resolved r) s =
  setIsLoading false
    (submit_catch (TypeError m) (setError None (setIsLoading true s))).
Proof. intros H Hb. run_submit. rewrite H, Hb. reflexivity. Qed.

Lemma submit_success (formData : RouteFormData) (r : Response) (data : Envelope)
    (rt : RouteData) (s : State) :
  ok r = true → body r = Parsed data →
  success data = true → Http.route data = Some rt →
  handleRouteSubmit formData (Resolved r) s =
  setIsLoading false
    (setSelectedToLocation
       (Some {| name := "Destination";
                coordinates := (endLng formData, endLat formData) |})
       (setSelectedFromLocation
          (Some {| name := "Start Location";
                   coordinates := (startLng formData, startLat formData) |})
          (setRouteData (Some rt) (setError None (setIsLoading true s))))).
Proof.
  intros H Hb Hs Hr. run_submit. rewrite H, Hb. cbn.
  rewrite Hs, Hr. reflexivity.
Qed.

Lemma submit_failure_envelope (formData : RouteFormData) (r : Response)
    (data : Envelope) (s : State) :
  ok r = true → body r = Parsed data →
  success data && bool_decide (is_Some (Http.route data)) = false →
  handleRouteSubmit formData (Resolved r) s =
  setIsLoading false
    (setError
       (Some (let m := or_string (Http.error data) "Failed to calculate route" in
              if includes m "Failed to fetch" then cannot_connect_message else m))
       (setError None (setIsLoading true s))).
Proof.
  intros H Hb Hs. run_submit. rewrite H, Hb. cbn.
  rewrite Hs. reflexivity.
Qed.

End Submit.

(** ** Route requests on the page with the clickable map *)

Section Calculation.
Import Js Route Http PlannerPage.

Ltac run_calculation :=
  unfold handleRouteCalculation, try_catch_finally, calculation_block;
  unfold mbind, Try_bind, bind, set, await_fetch, json, ret, throw; cbn.

Lemma calculation_rejected (coords : RouteFormData) (err : Thrown) (s : State) :
  handleRouteCalculation coords (Rejected err) s =
  setLoading false
    (setError (Some connect_failure_message)
       (setCoordinates (λ _, coords)
          (setRoute None (setError None (setLoading true s))))).
Proof. reflexivity. Qed.

Lemma calculation_malformed (coords : RouteFormData) (r : Response) (m : string)
    (s : State) :
  body r = Malformed m →
  handleRouteCalculation coords (Resolved r) s =
  setLoading false
    (setError (Some connect_failure_message)
       (setCoordinates (λ _, coords)
          (setRoute None (setError None (setLoading true s))))).
Proof. intros Hb. run_calculation. rewrite Hb. reflexivity. Qed.

Lemma calculation_null (coords : RouteFormData) (r : Response) (m : string)
    (s : State) :
  body r = Null m →
  handleRouteCalculation coords (Resolved r) s =
  setLoading false
    (setError (Some connect_failure_message)
       (setCoordinates (λ _, coords)
          (setRoute None (setError None (setLoading true s))))).
Proof. intros Hb. run_calculation. rewrite Hb. reflexivity. Qed.

Lemma calculation_parsed (coords : RouteFormData) (r : Response) (data : Envelope)
    (s : State) :
  body r = Parsed data →
  handleRouteCalculation coords (Resolved r) s =
  setLoading false
    ((if success data
      then setRoute (Http.route data)
      else setError (Some (or_string (Http.error data) "Failed to calculate route")))
       (setCoordinates (λ _, coords)
          (setRoute None (setError None (setLoading true s))))).
Proof.
  intros Hb. run_calculation. rewrite Hb. cbn.
  destruct (success data); reflexivity.
Qed.

(** The handler never reads the status: two responses with the same body
    leave the same state. *)
Lemma calculation_ignores_status (coords : RouteFormData) (r1 r2 : Response)
    (s : State) :
  body r1 = body r2 →
  handleRouteCalculation coords (Resolved r1) s =
  handleRouteCalculation coords (Resolved r2) s.
Proof.
  intros Hb. destruct (body r1) as [m|m|data] eqn:H1.
  - rewrite (calculation_malformed coords r1 m s H1).
    rewrite (calculation_malformed coords r2 m s); congruence.
  - rewrite (calculation_null coords r1 m s H1).
    rewrite (calculation_null coords r2 m s); congruence.
  - rewrite (calculation_parsed coords r1 data s H1).
    rewrite (calculation_parsed coords r2 data s); congruence.
Qed.

End Calculation.

(** ** How route failures are surfaced, and what is stored *)

Section RouteFailures.
Import Js Route Http.

(** C3, as the two handlers implement it. [handleRouteSubmit] surfaces
    every response whose status is outside 200..299 as the message
    "HTTP error! status: <code>", whatever the body, and this message
    differs from the messages for a failed connection, an unparseable
    body, a bad URL and an unknown error.  A failure envelope on a 2xx
    response is caught inside the handler and surfaced as the server's
    message when that message is non-empty and does not contain
    "Failed to fetch".  [handleRouteCalculation] surfaces the non-empty
    message of a failure envelope unchanged.  In both, a failure is a
    message string, and nothing is stored as a route. *)
Theorem failures_surfaced (formData : RouteFormData)
    (s : NavigatorPage.State) (p : PlannerPage.State) :
  (∀ r, ok r = false →
     let s' := NavigatorPage.handleRouteSubmit formData (Resolved r) s in
     NavigatorPage.error s' = Some (NavigatorPage.http_error_message (status r))
     ∧ NavigatorPage.routeData s' = NavigatorPage.routeData s
     ∧ NavigatorPage.isLoading s' = false)
  ∧ (∀ n,
     NavigatorPage.http_error_message n ≠ NavigatorPage.cannot_connect_message
     ∧ NavigatorPage.http_error_message n ≠ NavigatorPage.invalid_response_message
     ∧ NavigatorPage.http_error_message n ≠ NavigatorPage.invalid_url_message
     ∧ NavigatorPage.http_error_message n ≠ NavigatorPage.unexpected_message)
  ∧ (∀ r data msg,
     ok r = true → body r = Parsed data →
     success data = false → Http.error data = Some msg →
     truthy_string msg = true → includes msg "Failed to fetch" = false →
     let s' := NavigatorPage.handleRouteSubmit formData (Resolved r) s in
     NavigatorPage.error s' = Some msg
     ∧ NavigatorPage.routeData s' = NavigatorPage.routeData s
     ∧ NavigatorPage.isLoading s' = false)
  ∧ (∀ r data msg,
     body r = Parsed data →
     success data = false → Http.error data = Some msg →
     truthy_string msg = true →
     let p' := PlannerPage.handleRouteCalculation formData (Resolved r) p in
     PlannerPage.error p' = Some msg
     ∧ PlannerPage.route p' = None
     ∧ PlannerPage.loading p' = false).
Proof.
  repeat match goal with |- _ ∧ _ => split end.
  - intros r Hok. cbv zeta. rewrite submit_not_ok by exact Hok.
    repeat split.
  - apply http_error_message_distinct.
  - intros r data msg Hok Hb Hs He Ht Hi. cbv zeta.
    rewrite (submit_failure_envelope formData r data s Hok Hb)
      by (rewrite Hs; reflexivity).
    cbn. rewrite He. cbn. rewrite Ht, Hi. repeat split.
  - intros r data msg Hb Hs He Ht. cbv zeta.
    rewrite (calculation_parsed formData r data p Hb), Hs. cbn.
    rewrite He. cbn. rewrite Ht. repeat split.
Qed.

(** C4, as the two handlers implement it. [handleRouteSubmit] stores the
    route object of a 2xx response whose envelope has a truthy [success]
    and a route, exactly that object, whatever the length of its path,
    and records no error; for every other outcome it records an error
    message and leaves the stored route as it was.
    [handleRouteCalculation] stores the route object of an envelope with a
    truthy [success], with no error, and records an error message and
    stores no route when no such envelope arrives. *)
Theorem route_stored_or_error (formData : RouteFormData) (res : FetchResult)
    (s : NavigatorPage.State) (p : PlannerPage.State) :
  let s' := NavigatorPage.handleRouteSubmit formData res s in
  let p' := PlannerPage.handleRouteCalculation formData res p in
  (∀ r data rt,
      res = Resolved r → ok r = true → body r = Parsed data →
      success data = true → Http.route data = Some rt →
      NavigatorPage.routeData s' = Some rt ∧ NavigatorPage.error s' = None)
  ∧ ((¬ ∃ r data rt,
        res = Resolved r ∧ ok r = true ∧ body r = Parsed data
        ∧ success data = true ∧ Http.route data = Some rt) →
     (∃ m, NavigatorPage.error s' = Some m)
     ∧ NavigatorPage.routeData s' = NavigatorPage.routeData s)
  ∧ (∀ r data rt,
      res = Resolved r → body r = Parsed data →
      success data = true → Http.route data = Some rt →
      PlannerPage.route p' = Some rt ∧ PlannerPage.error p' = None)
  ∧ (no_success_envelope res = true →
     (∃ m, PlannerPage.error p' = Some m) ∧ PlannerPage.route p' = None).
Proof.
  cbv zeta. repeat match goal with |- _ ∧ _ => split end.
  - intros r data rt -> Hok Hb Hs Hr.
    rewrite (submit_success formData r data rt s Hok Hb Hs Hr). cbn. auto.
  - intros Hno. destruct res as [err|r].
    + rewrite submit_rejected.
      destruct (submit_catch_records err
                  (NavigatorPage.setError None (NavigatorPage.setIsLoading true s)))
        as (m & Hm & Hr & _).
      cbn. rewrite Hm, Hr. eauto.
    + destruct (ok r) eqn:Hok.
      * destruct (body r) as [m|m|data] eqn:Hb.
        { rewrite (submit_malformed formData r m s Hok Hb). cbn. eauto. }
        { rewrite (submit_null formData r m s Hok Hb).
          destruct (submit_catch_records (TypeError m)
                      (NavigatorPage.setError None (NavigatorPage.setIsLoading true s)))
            as (e & He & Hr & _).
          cbn. rewrite He, Hr. eauto. }
        destruct (success data && bool_decide (is_Some (Http.route data))) eqn:Hs.
        { apply andb_true_iff in Hs as [Hs Hr].
          apply bool_decide_eq_true in Hr as [rt Hr].
          exfalso. apply Hno. exists r, data, rt. auto. }
        rewrite (submit_failure_envelope formData r data s Hok Hb Hs).
        cbn. eauto.
      * rewrite submit_not_ok by exact Hok. cbn. eauto.
  - intros r data rt -> Hb Hs Hr.
    rewrite (calculation_parsed formData r data p Hb), Hs, Hr. split; reflexivity.
  - destruct res as [err|r]; cbn.
    + intros _. rewrite calculation_rejected. cbn. eauto.
    + destruct (body r) as [m|m|data] eqn:Hb.
      * intros _. rewrite (calculation_malformed formData r m p Hb). cbn. eauto.
      * intros _. rewrite (calculation_null formData r m p Hb). cbn. eauto.
      * rewrite (calculation_parsed formData r data p Hb).
        destruct (success data); cbn; [discriminate|]. eauto.
Qed.

(** What [handleRouteCalculation] leaves of the state it starts from: the
    cells of the layout and of the pending endpoint, and nothing of the
    route. *)
Lemma calculation_layout (coords : RouteFormData) (res : FetchResult)
    (s : PlannerPage.State) :
  let s' := PlannerPage.handleRouteCalculation coords res s in
  PlannerPage.isFullscreen s' = PlannerPage.isFullscreen s
  ∧ PlannerPage.showRouteForm s' = PlannerPage.showRouteForm s
  ∧ PlannerPage.showDirections s' = PlannerPage.showDirections s
  ∧ PlannerPage.selectedLocation s' = PlannerPage.selectedLocation s
  ∧ ∀ prior,
      PlannerPage.handleRouteCalculation coords res (PlannerPage.setRoute prior s) = s'.
Proof.
  cbv zeta. destruct res as [err|r].
  - rewrite !calculation_rejected. cbn. auto.
  - destruct (body r) as [m|m|data] eqn:Hb.
    + repeat split; try intros prior;
        rewrite !(calculation_malformed coords r m _ Hb); reflexivity.
    + repeat split; try intros prior;
        rewrite !(calculation_null coords r m _ Hb); reflexivity.
    + repeat split; try intros prior;
        rewrite !(calculation_parsed coords r data _ Hb);
        destruct (success data); reflexivity.
Qed.

(** C5, as [handleRouteCalculation] implements it. Every submission
    discards the prior route before the request is sent: the outcome is
    the same whatever route was stored.  The handler touches no cell of
    the layout.  When the request is rejected, the body does not parse, or
    the envelope's [success] is falsy, whatever the status of the
    response, the page is left with no route, with an error message
    recorded, no request in flight and the submitted coordinates kept, and
    a form that was on screen is still on screen. *)
Theorem failed_calculation_discards_route (coords : RouteFormData)
    (res : FetchResult) (s : PlannerPage.State) :
  let s' := PlannerPage.handleRouteCalculation coords res s in
  (∀ prior,
     PlannerPage.handleRouteCalculation coords res (PlannerPage.setRoute prior s) = s')
  ∧ PlannerPage.isFullscreen s' = PlannerPage.isFullscreen s
  ∧ PlannerPage.showRouteForm s' = PlannerPage.showRouteForm s
  ∧ (no_success_envelope res = true →
     PlannerPage.route s' = None
     ∧ (∃ m, PlannerPage.error s' = Some m)
     ∧ PlannerPage.loading s' = false
     ∧ PlannerPage.coordinates s' = coords
     ∧ (PlannerSession.form_shown s = true → PlannerSession.form_shown s' = true)).
Proof.
  cbv zeta.
  destruct (calculation_layout coords res s) as (Hfull & Hform & _ & _ & Hprior).
  split; [exact Hprior|]. split; [exact Hfull|]. split; [exact Hform|].
  intros Hno.
  assert (H : PlannerPage.route (PlannerPage.handleRouteCalculation coords res s) = None
              ∧ (∃ m, PlannerPage.error
                        (PlannerPage.handleRouteCalculation coords res s) = Some m)
              ∧ PlannerPage.loading
                  (PlannerPage.handleRouteCalculation coords res s) = false
              ∧ PlannerPage.coordinates
                  (PlannerPage.handleRouteCalculation coords res s) = coords).
  { destruct res as [err|r].
    - rewrite calculation_rejected. cbn. eauto 10.
    - destruct (body r) as [m|m|data] eqn:Hb.
      + rewrite (calculation_malformed coords r m s Hb). cbn. eauto 10.
      + rewrite (calculation_null coords r m s Hb). cbn. eauto 10.
      + rewrite (calculation_parsed coords r data s Hb).
        unfold no_success_envelope in Hno. rewrite Hb in Hno.
        destruct (success data); cbn in *; [discriminate|]. eauto 10. }
  destruct H as (Hr & He & Hl & Hc).
  repeat match goal with |- _ ∧ _ => split end; try assumption.
  unfold PlannerSession.form_shown, PlannerSession.no_route.
  rewrite Hfull, Hform, Hr.
  destruct (PlannerPage.isFullscreen s); [|reflexivity].
  destruct (PlannerPage.route s); cbn; [discriminate|]. auto.
Qed.

End RouteFailures.

(** ** Worked cases *)

Section Cases.
Import Js Route Http.

(** A timeout on the watch of a tracking provider: the provider goes idle
    while watch 0 stays registered, and a position delivered on watch 0
    afterwards is stored. *)
Lemma error_leaves_watch_registered :
  let w := Sample.tracking in
  let w1 := LocationContext.step w
              (LocationContext.PositionError 0 LocationContext.TIMEOUT) in
  let w2 := LocationContext.step w1
              (LocationContext.Position 0 (Sample.fix_at 9 None None)) in
  LocationContext.isTracking (fst w) = true
  ∧ elements (LocationContext.watches (snd w)) = [0]
  ∧ LocationContext.isTracking (fst w1) = false
  ∧ elements (LocationContext.watches (snd w1)) = [0]
  ∧ LocationContext.timestamp <$> LocationContext.currentLocation (fst w2) = Some 9
  ∧ LocationContext.isTracking (fst w2) = false
  ∧ ¬ LocationContext.error_tears_down.
Proof.
  cbv zeta. repeat match goal with |- _ ∧ _ => split end;
    try (vm_compute; reflexivity).
  intros H.
  apply (H Sample.tracking 0 LocationContext.TIMEOUT);
    apply elem_of_elements; vm_compute; apply list_elem_of_here.
Qed.

(** The same timeout, followed by [startTracking]. *)
Lemma errorCallback_keeps_watch_timeout :
  let w := Sample.tracking in
  let w1 := LocationContext.step w
              (LocationContext.PositionError 0 LocationContext.TIMEOUT) in
  let w2 := LocationContext.step w1 LocationContext.StartTracking in
  LocationContext.isTracking (fst w) = true
  ∧ LocationContext.watchId (fst w) = Some 0
  ∧ LocationContext.isTracking (fst w1) = false
  ∧ LocationContext.error (fst w1)
    = Some (LocationContext.errorMessage LocationContext.TIMEOUT)
  ∧ 0 ∈ LocationContext.watches (snd w1)
  ∧ LocationContext.isTracking (fst w2) = true
  ∧ LocationContext.error (fst w2) = None
  ∧ LocationContext.watches (snd w2)
    = {[ LocationContext.next_watch (snd w) ]}.
Proof.
  assert (Hgeo : LocationContext.geolocation (snd Sample.tracking) = true)
    by reflexivity.
  assert (Hreg : LocationContext.watches (snd Sample.tracking) = {[ 0 ]}).
  { apply (mount_one_watch [LocationContext.StartTracking]). }
  assert (Hfresh : LocationContext.fresh_ids (snd Sample.tracking)).
  { intros id Hid. rewrite Hreg in Hid. apply elem_of_singleton in Hid.
    subst id. reflexivity. }
  destruct (errorCallback_keeps_watch Sample.tracking 0 LocationContext.TIMEOUT
              (Sample.fix_at 9 None None) Hgeo Hfresh eq_refl eq_refl Hreg)
    as (H1 & H2 & H3 & H4 & H5 & H6 & H7 & H8 & H9 & H10).
  cbv zeta. repeat match goal with |- _ ∧ _ => split end;
    [reflexivity | reflexivity | exact H1 | exact H2 | exact H5
    | exact H7 | exact H8 | exact H10].
Defined.

(** A second [startTracking] on a tracking provider: the handler leaves
    two watches registered, 0 and 1; after the render the registered
    watch is 1, not 0; and when a third call shares the batch of the
    second, the watches 1 and 2 are both registered after the render. *)
Lemma second_start_registers_second_watch :
  let w := Sample.tracking in
  let h := LocationContext.act (LocationContext.settled w)
             (LocationContext.Call LocationContext.StartTracking) in
  let m1 := LocationContext.act h LocationContext.Render in
  let m2 := LocationContext.act
              (LocationContext.act h
                 (LocationContext.Call LocationContext.StartTracking))
              LocationContext.Render in
  LocationContext.isTracking (fst w) = true
  ∧ elements (LocationContext.watches (snd w)) = [0]
  ∧ size (LocationContext.watches (snd (LocationContext.startTracking w))) = 2%nat
  ∧ size (LocationContext.watches (LocationContext.nav h)) = 2%nat
  ∧ elements (LocationContext.watches (LocationContext.nav m1)) = [1]
  ∧ LocationContext.watchId (LocationContext.cells m1) = Some 1
  ∧ size (LocationContext.watches (LocationContext.nav m2)) = 2%nat
  ∧ ¬ LocationContext.start_registers_nothing.
Proof.
  cbv zeta. repeat match goal with |- _ ∧ _ => split end;
    try (vm_compute; reflexivity).
  intros H. specialize (H Sample.tracking eq_refl).
  apply (f_equal size) in H. vm_compute in H. discriminate.
Qed.

(** The same second [startTracking], through the render that follows and
    the answer to the permission query of that render. *)
Lemma startTracking_replaces_watch_twice :
  let m := LocationContext.settled Sample.tracking in
  let h := LocationContext.act m
             (LocationContext.Call LocationContext.StartTracking) in
  let m1 := LocationContext.act h LocationContext.Render in
  let m2 := LocationContext.act
              (LocationContext.act h
                 (LocationContext.Call LocationContext.StartTracking))
              LocationContext.Render in
  LocationContext.isTracking (LocationContext.cells m) = true
  ∧ LocationContext.watchId (LocationContext.cells m) = Some 0
  ∧ LocationContext.isTracking (LocationContext.cells h) = true
  ∧ LocationContext.error (LocationContext.cells h) = None
  ∧ LocationContext.watchId (LocationContext.cells h) = Some 1
  ∧ LocationContext.watches (LocationContext.nav h) = {[ 1 ]} ∪ {[ 0 ]}
  ∧ LocationContext.watches (LocationContext.nav m1) = {[ 1 ]}
  ∧ LocationContext.queries (LocationContext.nav m1) = 3%nat
  ∧ LocationContext.hasLocationPermission
      (LocationContext.cells
         (LocationContext.act m1
            (LocationContext.Call (LocationContext.PermissionAnswer true))))
    = true
  ∧ LocationContext.watches (LocationContext.nav m2) = {[ 2 ]} ∪ {[ 1 ]}.
Proof.
  assert (Hgeo : LocationContext.geolocation (snd Sample.tracking) = true)
    by reflexivity.
  assert (Hreg : LocationContext.watches (snd Sample.tracking) = {[ 0 ]}).
  { apply (mount_one_watch [LocationContext.StartTracking]). }
  assert (Hfresh : LocationContext.fresh_ids (snd Sample.tracking)).
  { intros id Hid. rewrite Hreg in Hid. apply elem_of_singleton in Hid.
    subst id. reflexivity. }
  destruct (startTracking_replaces_watch (LocationContext.settled Sample.tracking) 0
              Hgeo Hfresh eq_refl eq_refl eq_refl Hreg)
    as (_ & H2 & _ & H4 & H5 & _ & _ & H8 & _ & _ & _ & H12 & H13 & H14
        & _ & _ & _ & _ & H19 & _).
  cbv zeta. repeat match goal with |- _ ∧ _ => split end;
    [reflexivity | reflexivity | exact H4 | exact H5 | exact H8 | exact H2
    | exact H12 | exact H13 | exact (H14 true) | exact H19].
Defined.

(** A failure envelope on a 200 response whose message mentions
    "Failed to fetch" is shown with the text of a failed connection, the
    same text a rejected request gets, and the server's message is lost.
    On the other page, a 500 response is shown as a failed connection or
    as the envelope's message, depending on its body. *)
Lemma envelope_mistaken_for_transport :
  let s0 := NavigatorPage.initial in
  let p0 := PlannerPage.initial in
  let fd := RouteForm.defaultData in
  let envelope := Sample.respond 200 (Sample.failure_envelope "Failed to fetch map data") in
  let transport := Rejected (TypeError "Failed to fetch") in
  NavigatorPage.error (NavigatorPage.handleRouteSubmit fd envelope s0)
    = Some NavigatorPage.cannot_connect_message
  ∧ NavigatorPage.error (NavigatorPage.handleRouteSubmit fd envelope s0)
    = NavigatorPage.error (NavigatorPage.handleRouteSubmit fd transport s0)
  ∧ NavigatorPage.error (NavigatorPage.handleRouteSubmit fd envelope s0)
    ≠ Some "Failed to fetch map data"
  ∧ PlannerPage.error
      (PlannerPage.handleRouteCalculation fd
         (Resolved {| status := 500; body := Malformed "Internal Server Error" |}) p0)
    = PlannerPage.error (PlannerPage.handleRouteCalculation fd transport p0)
  ∧ PlannerPage.error
      (PlannerPage.handleRouteCalculation fd
         (Sample.respond 500 (Sample.failure_envelope "No path found")) p0)
    = PlannerPage.error
        (PlannerPage.handleRouteCalculation fd
           (Sample.respond 200 (Sample.failure_envelope "No path found")) p0).
Proof. cbv zeta. repeat split; try reflexivity. vm_compute. discriminate. Qed.

(** A failure envelope with an ordinary message on a 200 response, and a
    404 response, on both pages. *)
Lemma failures_surfaced_no_path :
  let fd := RouteForm.defaultData in
  let r := {| status := 200;
              body := Parsed (Sample.failure_envelope "No path found") |} in
  NavigatorPage.error
    (NavigatorPage.handleRouteSubmit fd (Resolved r) NavigatorPage.initial)
    = Some "No path found"
  ∧ PlannerPage.error
      (PlannerPage.handleRouteCalculation fd (Resolved r) PlannerPage.initial)
    = Some "No path found"
  ∧ NavigatorPage.error
      (NavigatorPage.handleRouteSubmit fd
         (Resolved {| status := 404; body := Malformed "Not Found" |})
         NavigatorPage.initial)
    = Some (NavigatorPage.http_error_message 404).
Proof.
  cbv zeta.
  destruct (failures_surfaced RouteForm.defaultData NavigatorPage.initial
              PlannerPage.initial) as (Hstatus & _ & Hsubmit & Hcalc).
  split; [|split].
  - apply (Hsubmit _ (Sample.failure_envelope "No path found") "No path found");
      reflexivity.
  - apply (Hcalc _ (Sample.failure_envelope "No path found") "No path found");
      reflexivity.
  - apply (Hstatus {| status := 404; body := Malformed "Not Found" |}).
    reflexivity.
Defined.

(** A success envelope whose route has an empty path is stored as it is,
    with no error, by both handlers; the second one also stores nothing,
    with no error, when the envelope has no route at all. *)
Lemma pathless_route_stored :
  let fd := RouteForm.defaultData in
  let res := Sample.respond 200 (Sample.success_envelope (Some Sample.pathless)) in
  let s' := NavigatorPage.handleRouteSubmit fd res NavigatorPage.initial in
  let p' := PlannerPage.handleRouteCalculation fd res PlannerPage.initial in
  let q' := PlannerPage.handleRouteCalculation fd
              (Sample.respond 200 (Sample.success_envelope None))
              PlannerPage.initial in
  NavigatorPage.routeData s' = Some Sample.pathless
  ∧ NavigatorPage.error s' = None
  ∧ PlannerPage.route p' = Some Sample.pathless
  ∧ PlannerPage.error p' = None
  ∧ length (path_coordinates Sample.pathless) = 0%nat
  ∧ ¬ ((∃ rt, NavigatorPage.routeData s' = Some rt
              ∧ (2 ≤ length (path_coordinates rt))%nat)
       ∨ (∃ m, NavigatorPage.error s' = Some m))
  ∧ PlannerPage.route q' = None
  ∧ PlannerPage.error q' = None.
Proof.
  cbv zeta. repeat match goal with |- _ ∧ _ => split end; try reflexivity.
  intros [(rt & Hrt & Hlen)|(m & Hm)].
  - vm_compute in Hrt. injection Hrt as <-. cbn in Hlen. lia.
  - vm_compute in Hm. discriminate.
Qed.

(** A response with status 200 and a success envelope that carries the
    route [straight], and a rejected request, on both pages. *)
Lemma route_stored_straight :
  let fd := RouteForm.defaultData in
  let found := Sample.respond 200 (Sample.success_envelope (Some Sample.straight)) in
  let failed := Rejected (TypeError "Failed to fetch") in
  NavigatorPage.routeData (NavigatorPage.handleRouteSubmit fd found NavigatorPage.initial)
    = Some Sample.straight
  ∧ NavigatorPage.error (NavigatorPage.handleRouteSubmit fd found NavigatorPage.initial)
    = None
  ∧ PlannerPage.route (PlannerPage.handleRouteCalculation fd found PlannerPage.initial)
    = Some Sample.straight
  ∧ (∃ m, NavigatorPage.error
            (NavigatorPage.handleRouteSubmit fd failed NavigatorPage.initial) = Some m)
  ∧ NavigatorPage.routeData (NavigatorPage.handleRouteSubmit fd failed NavigatorPage.initial)
    = None
  ∧ PlannerPage.route (PlannerPage.handleRouteCalculation fd failed PlannerPage.initial)
    = None.
Proof.
  cbv zeta.
  destruct (route_stored_or_error RouteForm.defaultData
              (Sample.respond 200 (Sample.success_envelope (Some Sample.straight)))
              NavigatorPage.initial PlannerPage.initial) as (Hsubmit & _ & Hcalc & _).
  destruct (route_stored_or_error RouteForm.defaultData
              (Rejected (TypeError "Failed to fetch"))
              NavigatorPage.initial PlannerPage.initial) as (_ & Hrefused & _ & Hfail).
  destruct (Hsubmit {| status := 200;
                       body := Parsed (Sample.success_envelope (Some Sample.straight)) |}
              (Sample.success_envelope (Some Sample.straight)) Sample.straight
              eq_refl eq_refl eq_refl eq_refl eq_refl) as [Hstored Hclean].
  destruct (Hcalc {| status := 200;
                     body := Parsed (Sample.success_envelope (Some Sample.straight)) |}
              (Sample.success_envelope (Some Sample.straight)) Sample.straight
              eq_refl eq_refl eq_refl eq_refl) as [Hroute _].
  destruct Hrefused as [Herr Hkept].
  { intros (r & data & rt & Hres & _). discriminate. }
  destruct (Hfail eq_refl) as [_ Hnone].
  repeat match goal with |- _ ∧ _ => split end;
    [exact Hstored | exact Hclean | exact Hroute | exact Herr | exact Hkept
    | exact Hnone].
Defined.

(** A response with status 500 whose body is a success envelope, for a
    request sent from the form of a page that shows no route: the handler
    does not look at the status, stores the route of the envelope and
    records no error, and the form leaves the screen. *)
Lemma server_error_with_route_stored :
  let r := {| status := 500;
              body := Parsed (Sample.success_envelope (Some Sample.straight)) |} in
  let s := PlannerPage.initial in
  let s' := PlannerPage.handleRouteCalculation RouteForm.defaultData (Resolved r) s in
  ok r = false
  ∧ PlannerSession.form_shown s = true
  ∧ PlannerPage.route s' = Some Sample.straight
  ∧ PlannerPage.error s' = None
  ∧ PlannerSession.form_shown s' = false
  ∧ ¬ (PlannerPage.route s' = None ∧ ∃ m, PlannerPage.error s' = Some m).
Proof.
  cbv zeta. repeat match goal with |- _ ∧ _ => split end; try reflexivity.
  intros [H _]. vm_compute in H. discriminate.
Qed.

(** A 500 response with a failure envelope, for a request sent from the
    form of a page that shows no route: the message is recorded and the
    form is still on screen.  Had a route been stored, the outcome would
    be the same. *)
Lemma failed_calculation_server_error :
  let res := Sample.respond 500 (Sample.failure_envelope "No path found") in
  let s := PlannerPage.initial in
  let s' := PlannerPage.handleRouteCalculation RouteForm.defaultData res s in
  PlannerSession.form_shown s = true
  ∧ no_success_envelope res = true
  ∧ PlannerPage.route s' = None
  ∧ PlannerPage.error s' = Some "No path found"
  ∧ PlannerPage.loading s' = false
  ∧ PlannerPage.coordinates s' = RouteForm.defaultData
  ∧ PlannerSession.form_shown s' = true
  ∧ PlannerPage.handleRouteCalculation RouteForm.defaultData res
      Sample.planner_with_route = s'.
Proof.
  cbv zeta.
  destruct (failed_calculation_discards_route RouteForm.defaultData
              (Sample.respond 500 (Sample.failure_envelope "No path found"))
              PlannerPage.initial) as (Hprior & _ & _ & Hfail).
  destruct (Hfail eq_refl) as (Hroute & _ & Hload & Hcoords & Hshown).
  repeat match goal with |- _ ∧ _ => split end;
    [reflexivity | reflexivity | exact Hroute | reflexivity | exact Hload
    | exact Hcoords | exact (Hshown eq_refl) | exact (Hprior (Some Sample.straight))].
Defined.

(** A fix stamped 3 delivered after a fix stamped 5 replaces it. *)
Lemma stale_sample_accepted :
  let newer := Sample.fix_at 5 None None in
  let older := Sample.fix_at 3 None None in
  let w := LocationContext.run Sample.tracking [LocationContext.Position 0 newer] in
  let w' := LocationContext.step w (LocationContext.Position 0 older) in
  LocationContext.timestamp <$> LocationContext.currentLocation (fst w) = Some 5
  ∧ LocationContext.timestamp <$> LocationContext.currentLocation (fst w') = Some 3
  ∧ ¬ LocationContext.rejects_stale_samples.
Proof.
  cbv zeta. split; [reflexivity|]. split; [reflexivity|].
  intros H.
  specialize (H (LocationContext.successCallback (Sample.fix_at 5 None None)
                   LocationContext.initial)
                (LocationContext.locationData_of (Sample.fix_at 5 None None))
                (Sample.fix_at 3 None None) eq_refl).
  cbn in H. assert (H3 : 3 ≤ 5) by lia. apply H in H3. discriminate.
Qed.

(** Fixes stamped 1, 2, 3 delivered in this order. *)
Lemma latest_sample_wins_in_order :
  let ps := [Sample.fix_at 1 None None; Sample.fix_at 2 None None;
             Sample.fix_at 3 None None] in
  StronglySorted Z.lt (LocationContext.position_timestamp <$> ps)
  ∧ StronglySorted Z.lt
      (LocationContext.timestamp
         <$> LocationContext.retained LocationContext.initial ps).
Proof.
  cbv zeta.
  assert (Hs : StronglySorted Z.lt [1; 2; 3]).
  { repeat constructor; lia. }
  split; [exact Hs|].
  destruct (latest_sample_wins
              [Sample.fix_at 1 None None; Sample.fix_at 2 None None;
               Sample.fix_at 3 None None] LocationContext.initial)
    as (_ & _ & Hsorted).
  apply Hsorted, Hs.
Defined.

(** The library as start and the canteen as end, no request in flight. *)
Lemma swap_involution_library_canteen :
  let w := Sample.chosen in
  RouteForm.coherent w
  ∧ RouteForm.swap_disabled false (fst w) = false
  ∧ RouteForm.selectedStartLocation (fst (RouteForm.clickSwap false w))
    = Some Sample.canteen
  ∧ RouteForm.selectedEndLocation (fst (RouteForm.clickSwap false w))
    = Some Sample.library
  ∧ RouteForm.clickSwap false (RouteForm.clickSwap false w) = w.
Proof.
  assert (Hco : RouteForm.coherent Sample.chosen).
  { intros c Hc. cbn in Hc. injection Hc as <-. reflexivity. }
  assert (Hen : RouteForm.swap_disabled false (fst Sample.chosen) = false)
    by reflexivity.
  destruct (swap_involution false Sample.chosen Hco Hen)
    as (H1 & H2 & _ & _ & _ & _ & _ & H8 & _).
  cbv zeta. repeat match goal with |- _ ∧ _ => split end;
    [exact Hco | exact Hen | exact H1 | exact H2 | exact H8].
Defined.

(** With the library as start and the canteen as end, the open end
    selector offers the canteen and not the library, the open start
    selector offers the library and not the canteen, and only the start
    selector shows the current-location option. *)
Lemma selectors_library_canteen :
  let s := fst Sample.chosen in
  let offer := LocationSelector.offered Sample.catalog Sample.categories
                 Sample.toLowerCase in
  offer (RouteForm.endSelectorProps s) Sample.opened = [Sample.canteen]
  ∧ offer (RouteForm.startSelectorProps s) Sample.opened = [Sample.library]
  ∧ LocationSelector.id Sample.canteen ≠ LocationSelector.id Sample.library
  ∧ LocationSelector.currentLocationOffered
      (RouteForm.startSelectorProps s) Sample.opened = true
  ∧ LocationSelector.currentLocationOffered
      (RouteForm.endSelectorProps s) Sample.opened = false.
Proof.
  cbv zeta.
  destruct (selectors_exclude_other_endpoint Sample.catalog Sample.categories
              Sample.toLowerCase (fst Sample.chosen) Sample.opened)
    as (Hend & _ & _ & _ & _ & _ & Hcur & Hno).
  assert (He : LocationSelector.offered Sample.catalog Sample.categories
                 Sample.toLowerCase (RouteForm.endSelectorProps (fst Sample.chosen))
                 Sample.opened = [Sample.canteen]) by (vm_compute; reflexivity).
  repeat match goal with |- _ ∧ _ => split end.
  - exact He.
  - vm_compute. reflexivity.
  - apply (Hend Sample.library Sample.canteen); [reflexivity|].
    rewrite He. apply list_elem_of_here.
  - exact Hcur.
  - exact Hno.
Defined.

(** A fix with heading 90 degrees and speed 0, and a fix with no
    heading. *)
Lemma successCallback_zero_dropped_fix :
  let position := Sample.fix_at 7 (Some Sample.ninety) (Some Sample.zero) in
  let still := Sample.fix_at 8 None (Some Sample.zero) in
  (∃ d, LocationContext.currentLocation
          (LocationContext.successCallback position LocationContext.initial) = Some d
        ∧ LocationContext.heading d = Some Sample.ninety
        ∧ LocationContext.speed d = None)
  ∧ (∃ d, LocationContext.currentLocation
            (LocationContext.successCallback still LocationContext.initial) = Some d
          ∧ LocationContext.heading d = None
          ∧ LocationContext.speed d = None).
Proof.
  cbv zeta. split.
  - destruct (successCallback_zero_dropped
                (Sample.fix_at 7 (Some Sample.ninety) (Some Sample.zero))
                LocationContext.initial) as (d & Hd & _ & Hh & _ & Hs).
    exists d. split; [exact Hd|]. split.
    + destruct (Hh Sample.ninety eq_refl) as (_ & _ & Hkeep).
      apply Hkeep; reflexivity.
    + destruct (Hs Sample.zero eq_refl) as (Hdrop & _).
      apply Hdrop. reflexivity.
  - destruct (successCallback_zero_dropped
                (Sample.fix_at 8 None (Some Sample.zero))
                LocationContext.initial) as (d & Hd & Hh & _ & _ & Hs).
    exists d. split; [exact Hd|]. split.
    + apply Hh. reflexivity.
    + destruct (Hs Sample.zero eq_refl) as (Hdrop & _).
      apply Hdrop. reflexivity.
Defined.

(** A fix whose heading is NaN, which is what a device that does not move
    reports: NaN is not zero, and the heading is stored as absent. *)
Lemma nan_heading_dropped :
  let position := Sample.fix_at 7 (Some S754_nan) (Some Sample.zero) in
  let s := LocationContext.successCallback position LocationContext.initial in
  is_zero S754_nan = false
  ∧ LocationContext.heading <$> LocationContext.currentLocation s = Some None
  ∧ LocationContext.heading <$> LocationContext.currentLocation s
    ≠ Some (Some S754_nan)
  ∧ ¬ LocationContext.preserves_nonzero.
Proof.
  cbv zeta. repeat match goal with |- _ ∧ _ => split end;
    try reflexivity; [discriminate|].
  intros H.
  destruct (H (Sample.fix_at 7 (Some S754_nan) (Some Sample.zero))
              LocationContext.initial
              (LocationContext.locationData_of
                 (Sample.fix_at 7 (Some S754_nan) (Some Sample.zero)))
              eq_refl) as [Hh _].
  specialize (Hh S754_nan eq_refl eq_refl). discriminate.
Qed.

End Cases.

(** * Further properties *)

(** ** The life of the tracking subscription *)

Section Lifecycle.
Import Js LocationContext LocationSession.

Lemma commit_cells (captured : option Z) (w : World) :
  geolocation (snd w) = true → fst (commit captured w) = fst w.
Proof.
  destruct w as [s b]. cbn [fst snd]. intros Hgeo. unfold commit. cbn [fst snd].
  case_decide; [reflexivity|].
  unfold checkLocationPermission, cleanup.
  destruct captured; cbn; rewrite Hgeo; reflexivity.
Qed.

Lemma commit_browser (captured : option Z) (w : World) :
  watchId (fst (commit captured w)) = watchId (fst w)
  ∧ isTracking (fst (commit captured w)) = isTracking (fst w)
  ∧ geolocation (snd (commit captured w)) = geolocation (snd w)
  ∧ watches (snd (commit captured w)) =
      if decide (watchId (fst w) = captured) then watches (snd w)
      else watches (snd w) ∖ the_watch captured.
Proof.
  destruct w as [s b]. unfold commit. cbn [fst snd]. case_decide.
  - auto.
  - unfold checkLocationPermission, cleanup.
    destruct captured as [id|]; cbn; destruct (geolocation b) eqn:Hg; cbn;
      repeat split; try reflexivity; try exact Hg;
      apply set_eq; intros x; rewrite elem_of_difference, elem_of_empty; tauto.
Qed.

Lemma handle_geolocation (rendered : option Z) (w : World) (e : Event) :
  geolocation (snd (handle rendered w e)) = geolocation (snd w).
Proof.
  destruct w as [s b]. destruct e; cbn; try (case_decide; reflexivity).
  - destruct (geolocation b) eqn:Hg; cbn; [reflexivity | exact Hg].
  - destruct rendered; reflexivity.
Qed.

Lemma act_geolocation (m : Mounted) (a : Action) :
  geolocation (nav (act m a)) = geolocation (nav m).
Proof.
  destruct a; unfold nav; cbn.
  - apply handle_geolocation.
  - apply commit_browser.
Qed.

Lemma acts_geolocation (l : list Action) (m : Mounted) :
  geolocation (nav (acts m l)) = geolocation (nav m).
Proof.
  revert m. induction l as [|a l IH]; intros m; cbn; [reflexivity|].
  unfold acts in IH. rewrite IH. apply act_geolocation.
Qed.

Lemma step_geolocation (w : World) (e : Event) :
  geolocation (snd (step w e)) = geolocation (snd w).
Proof.
  unfold step.
  change (geolocation (nav (act (act (settled w) (Call e)) Render))
          = geolocation (nav (settled w))).
  rewrite !act_geolocation. reflexivity.
Qed.

(** Under any batching the watch in [watchId] is registered. *)
Lemma act_live_watch (m : Mounted) (a : Action) :
  live_watch m → live_watch (act m a).
Proof.
  intros (Hfresh & Hreg & Htr).
  split; [apply act_fresh, Hfresh|].
  destruct m as [[s b] r]. unfold cells, nav in *. cbn [world rendered fst snd] in *.
  destruct a as [e|]; cbn [act world rendered fst snd].
  - destruct e; cbn [handle].
    + unfold startTracking. destruct (geolocation b); cbn; [|auto].
      split; [|eauto]. intros id [= <-].
      apply elem_of_union_l, elem_of_singleton. reflexivity.
    + unfold stopTracking. destruct r as [old|]; cbn; split;
        try discriminate. exact Hreg.
    + case_decide; cbn; auto.
    + case_decide; cbn; [split; [exact Hreg | discriminate] | auto].
    + case_decide; cbn; auto.
    + case_decide; cbn; auto.
  - destruct (commit_browser r (s, b)) as (-> & -> & _ & ->).
    cbn [fst snd]. split; [|exact Htr].
    intros id Hid. case_decide as Hd; [auto|].
    apply elem_of_difference. split; [auto|].
    destruct r as [old|]; cbn; [|apply not_elem_of_empty].
    rewrite elem_of_singleton. congruence.
Qed.

Lemma acts_live_watch (l : list Action) (m : Mounted) :
  live_watch m → live_watch (acts m l).
Proof.
  revert m. induction l as [|a l IH]; intros m H; cbn; [exact H|].
  apply IH, act_live_watch, H.
Qed.

Lemma the_watch_removed (o : option Z) :
  the_watch o ∖ the_watch o = ∅.
Proof.
  apply set_eq. intros x. rewrite elem_of_difference, elem_of_empty. tauto.
Qed.

(** As long as the calls find the provider rendered, a render leaves one
    watch. *)
Lemma act_one_watch_per_render (m : Mounted) (a : Action) :
  live_watch m → finds_rendered m a = true →
  one_watch_per_render m → one_watch_per_render (act m a).
Proof.
  intros (Hfresh & Hreg & _) Hfound Hk.
  destruct m as [[s b] r]. unfold one_watch_per_render, cells, nav in *.
  cbn [world rendered fst snd] in *.
  destruct a as [e|]; cbn [act world rendered fst snd].
  - assert (Hcall : e = StartTracking ∨ e = StopTracking →
                    watchId s = r ∧ watches b = the_watch r).
    { intros He. assert (Hr : watchId s = r).
      { destruct He as [-> | ->]; cbn in Hfound;
          apply bool_decide_eq_true in Hfound; exact Hfound. }
      rewrite decide_True in Hk by exact Hr. rewrite <- Hr. auto. }
    destruct e;
      try (match goal with
           | |- context [handle r (s, b) ?e] =>
               destruct (handle_callback r (s, b) e
                           ltac:(discriminate) ltac:(discriminate))
                 as (-> & -> & _ & _)
           end; exact Hk).
    + destruct (Hcall (or_introl eq_refl)) as [Hr Hb].
      cbn [handle]. unfold startTracking. destruct (geolocation b); cbn.
      * assert (Hnew : next_watch b ∉ the_watch r).
        { rewrite <- Hb. apply next_watch_unregistered, Hfresh. }
        rewrite decide_False.
        2:{ intros <-. apply Hnew. cbn. apply elem_of_singleton. reflexivity. }
        rewrite Hb. apply set_eq. intros x.
        rewrite elem_of_difference, elem_of_union, !elem_of_singleton.
        split; [intros [[->|Hx] Hn]; [reflexivity | contradiction]
               | intros ->; auto].
      * rewrite decide_True by exact Hr. rewrite Hr. exact Hb.
    + destruct (Hcall (or_intror eq_refl)) as [Hr Hb].
      cbn [handle]. unfold stopTracking. destruct r as [old|]; cbn.
      * rewrite Hb. cbn. apply watch_cleared_twice.
      * rewrite Hb. rewrite Hr. reflexivity.
  - destruct (commit_browser r (s, b)) as (-> & _ & _ & ->). cbn [fst snd].
    rewrite (decide_True (P := watchId s = watchId s)) by reflexivity.
    case_decide; exact Hk.
Qed.

Lemma acts_one_watch_per_render (l : list Action) (m : Mounted) :
  live_watch m → one_watch_per_render m → unbatched m l = true →
  one_watch_per_render (acts m l).
Proof.
  revert m. induction l as [|a l IH]; intros m Hl Hk Hu; cbn; [exact Hk|].
  cbn in Hu. apply andb_true_iff in Hu as [Ha Hu].
  apply IH; [apply act_live_watch, Hl | apply act_one_watch_per_render; assumption
            | exact Hu].
Qed.

Lemma mounted_idle (g : bool) (n : Z) :
  live_watch (mounted (idle_browser g n))
  ∧ one_watch_per_render (mounted (idle_browser g n))
  ∧ geolocation (nav (mounted (idle_browser g n))) = g.
Proof.
  destruct g; (split; [|split]); try reflexivity;
    (split; [intros id Hid; cbn in Hid; apply elem_of_empty in Hid; contradiction|]);
    split; cbn; discriminate.
Qed.

(** What a render leaves registered. *)
Lemma render_watches (m : Mounted) :
  one_watch_per_render m →
  watches (nav (act m Render)) = the_watch (watchId (cells m)).
Proof.
  destruct m as [[s b] r]. unfold one_watch_per_render, cells, nav.
  cbn [act world rendered fst snd].
  destruct (commit_browser r (s, b)) as (_ & _ & _ & ->). cbn [fst snd].
  case_decide; auto.
Qed.

Lemma the_watch_size (o : option Z) : (size (the_watch o) ≤ 1)%nat.
Proof.
  destruct o; cbn; [rewrite size_singleton | rewrite size_empty]; lia.
Qed.

(** X1. Whatever calls share a batch, a provider that says it is tracking
    holds the id of a registered watch in [watchId].  As long as every
    call of [startTracking] and [stopTracking] finds the provider
    rendered, the registered watches are the one in [watchId] and, until
    the next render, the one of the last render: a rendered provider has
    at most one watch registered, the one in [watchId]. *)
Theorem single_subscription (g : bool) (n : Z) (l : list Action) :
  let m := acts (mounted (idle_browser g n)) l in
  (isTracking (cells m) = true →
   ∃ id, watchId (cells m) = Some id ∧ id ∈ watches (nav m))
  ∧ (unbatched (mounted (idle_browser g n)) l = true →
     watches (nav m) ⊆ the_watch (watchId (cells m)) ∪ the_watch (rendered m)
     ∧ (watchId (cells m) = rendered m →
        watches (nav m) = the_watch (watchId (cells m)))
     ∧ watches (nav (act m Render)) = the_watch (watchId (cells m))
     ∧ (size (watches (nav (act m Render))) ≤ 1)%nat).
Proof.
  cbv zeta. destruct (mounted_idle g n) as (Hlive & Hone & _).
  pose proof (acts_live_watch l _ Hlive) as (Hfresh & Hreg & Htr).
  split.
  - intros Ht. destruct (Htr Ht) as [id Hid]. eauto.
  - intros Hu.
    pose proof (acts_one_watch_per_render l _ Hlive Hone Hu) as Hk.
    pose proof (render_watches _ Hk) as Hrender.
    repeat match goal with |- _ ∧ _ => split end.
    + unfold one_watch_per_render in Hk. intros x Hx. case_decide.
      * rewrite Hk in Hx. apply elem_of_union_l, Hx.
      * destruct (decide (x ∈ the_watch (rendered (acts (mounted (idle_browser g n)) l))))
          as [Hr|Hr]; [apply elem_of_union_r, Hr|].
        apply elem_of_union_l. rewrite <- Hk. apply elem_of_difference. auto.
    + intros Heq. unfold one_watch_per_render in Hk.
      rewrite decide_True in Hk by exact Heq. exact Hk.
    + exact Hrender.
    + rewrite Hrender. apply the_watch_size.
Qed.

(** X2. Unmounting the provider clears the watch of its last render and
    no other.  A watch whose id was put in [watchId] after that render
    stays registered.  As long as every call of [startTracking] and
    [stopTracking] finds the provider rendered, unmounting a rendered
    provider leaves no watch registered, and unmounting before the render
    of a call leaves the watch of that call. *)
Theorem unmount_releases (g : bool) (n : Z) (l : list Action) :
  let m := acts (mounted (idle_browser g n)) l in
  watches (unmount m) = watches (nav m) ∖ the_watch (rendered m)
  ∧ (∀ id, watchId (cells m) = Some id → rendered m ≠ Some id →
           id ∈ watches (unmount m))
  ∧ (unbatched (mounted (idle_browser g n)) l = true →
     watches (unmount m) =
       if decide (watchId (cells m) = rendered m) then ∅
       else the_watch (watchId (cells m))).
Proof.
  cbv zeta. destruct (mounted_idle g n) as (Hlive & Hone & _).
  pose proof (acts_live_watch l _ Hlive) as (_ & Hreg & _).
  set (m := acts (mounted (idle_browser g n)) l) in *.
  assert (Hun : watches (unmount m) = watches (nav m) ∖ the_watch (rendered m)).
  { unfold unmount, cleanup. destruct (rendered m); cbn; [reflexivity|].
    apply set_eq. intros x. rewrite elem_of_difference, elem_of_empty. tauto. }
  split; [exact Hun|]. split.
  - intros id Hid Hne. rewrite Hun. apply elem_of_difference.
    split; [apply Hreg, Hid|].
    destruct (rendered m); cbn; [|apply not_elem_of_empty].
    rewrite elem_of_singleton. congruence.
  - intros Hu.
    pose proof (acts_one_watch_per_render l _ Hlive Hone Hu) as Hk.
    fold m in Hk. unfold one_watch_per_render in Hk. rewrite Hun.
    case_decide as Hd; [|exact Hk].
    rewrite Hk, Hd. apply the_watch_removed.
Qed.

Lemma step_unsupported (w : World) (e : Event) :
  unsupported w → unsupported (step w e).
Proof.
  destruct w as [s nav]. unfold unsupported. cbn [fst snd].
  intros (Hg & Hw & Hid & Htr & Hloc & Herr).
  assert (Hh : ∃ b' granted,
            geolocation b' = false ∧ watches b' = ∅
            ∧ (handle (watchId s) (s, nav) e = (s, b')
               ∨ handle (watchId s) (s, nav) e = (setHasLocationPermission granted s, b'))).
  { destruct e; cbn.
    - exists nav, true. split; [exact Hg|]. split; [exact Hw|].
      left. unfold startTracking. rewrite Hg. cbn. f_equal. destruct s. cbn in *.
      rewrite Herr. reflexivity.
    - exists nav, true. split; [exact Hg|]. split; [exact Hw|].
      left. rewrite Hid. cbn. f_equal. destruct s. cbn in *.
      rewrite Htr. reflexivity.
    - exists nav, true. split; [exact Hg|]. split; [exact Hw|].
      left. rewrite decide_False; [reflexivity|]. rewrite Hw. apply not_elem_of_empty.
    - exists nav, true. split; [exact Hg|]. split; [exact Hw|].
      left. rewrite decide_False; [reflexivity|]. rewrite Hw. apply not_elem_of_empty.
    - case_decide.
      + exists nav, true. auto.
      + exists (settle nav), granted. auto.
    - case_decide.
      + exists nav, true. auto.
      + exists (settle nav), true. auto. }
  destruct Hh as (b' & granted & Hg' & Hw' & Hh).
  rewrite step_callback; cbn [fst]; destruct Hh as [-> | ->]; cbn; auto 10.
Qed.

(** X3. On a browser without the geolocation capability the provider
    never tracks: whatever is called, it stays idle with nothing
    registered, no position, and the message that geolocation is not
    supported. *)
Theorem unsupported_browser_never_tracks (n : Z) (es : list Event) :
  let w := run (mount (idle_browser false n)) es in
  isTracking (fst w) = false
  ∧ watchId (fst w) = None
  ∧ watches (snd w) = ∅
  ∧ currentLocation (fst w) = None
  ∧ error (fst w) = Some "Geolocation is not supported by this browser".
Proof.
  cbv zeta.
  assert (H : unsupported (run (mount (idle_browser false n)) es)).
  { generalize (mount (idle_browser false n)),
      (ltac:(repeat split) : unsupported (mount (idle_browser false n))).
    induction es as [|e es IH]; intros w Hw; cbn; [exact Hw|].
    apply IH, step_unsupported, Hw. }
  destruct H as (_ & Hw & Hid & Htr & Hloc & Herr). auto.
Qed.

(** What the handler [stopTracking] does, whatever the provider is
    like. *)
Lemma stopTracking_handler (m : Mounted) :
  let h := act m (Call StopTracking) in
  isTracking (cells h) = false
  ∧ currentLocation (cells h) = currentLocation (cells m)
  ∧ error (cells h) = error (cells m)
  ∧ hasLocationPermission (cells h) = hasLocationPermission (cells m)
  ∧ rendered h = rendered m
  ∧ (rendered m = None → watchId (cells h) = watchId (cells m) ∧ nav h = nav m)
  ∧ (∀ id, rendered m = Some id →
       watchId (cells h) = None ∧ nav h = clearWatch id (nav m)).
Proof.
  destruct m as [[s b] r]. unfold cells, nav. cbv zeta.
  cbn [act world rendered handle fst snd]. unfold stopTracking.
  destruct r as [old|]; cbn; repeat split; try discriminate; congruence.
Qed.

(** X4. The handler [stopTracking] sets the provider idle and keeps the
    stored position, the recorded error and the permission flag.  It
    clears the watch of the last render: called before the render of a
    [startTracking] on an idle provider, it clears nothing, and after the
    render the provider is idle with the new watch still registered.  On
    a browser with geolocation, as long as every call finds the provider
    rendered, [stopTracking] and the render after it leave the provider
    with [watchId] null and no watch registered, the permission query is
    sent again when a watch was cleared, and a second [stopTracking]
    changes nothing. *)
Theorem stopTracking_idle (n : Z) (l : list Action) :
  let m := acts (mounted (idle_browser true n)) l in
  let h := act m (Call StopTracking) in
  let m' := act h Render in
  isTracking (cells h) = false
  ∧ currentLocation (cells h) = currentLocation (cells m)
  ∧ error (cells h) = error (cells m)
  ∧ hasLocationPermission (cells h) = hasLocationPermission (cells m)
  ∧ cells m' = cells h
  ∧ (rendered m = None →
     watchId (cells h) = watchId (cells m)
     ∧ nav h = nav m
     ∧ ∀ id, watchId (cells m) = Some id →
             id ∈ watches (nav m') ∧ isTracking (cells m') = false)
  ∧ (unbatched (mounted (idle_browser true n)) l = true →
     watchId (cells m) = rendered m →
     watchId (cells m') = None
     ∧ rendered m' = None
     ∧ watches (nav m') = ∅
     ∧ queries (nav m') =
         (queries (nav m) + match watchId (cells m) with
                            | Some _ => 1
                            | None => 0
                            end)%nat
     ∧ act (act m' (Call StopTracking)) Render = m').
Proof.
  cbv zeta. destruct (mounted_idle true n) as (Hlive & Hone & Hg).
  pose proof (acts_live_watch l _ Hlive) as Hl.
  pose proof (acts_geolocation l (mounted (idle_browser true n))) as Hgeo.
  rewrite Hg in Hgeo.
  set (m := acts (mounted (idle_browser true n)) l) in *.
  destruct (stopTracking_handler m) as (Htr & Hloc & Herr & Hperm & Hr & Hstale & Hclear).
  cbv zeta in *.
  set (h := act m (Call StopTracking)) in *.
  assert (Hgh : geolocation (nav h) = true).
  { unfold h. rewrite act_geolocation. exact Hgeo. }
  assert (Hcells : cells (act h Render) = cells h).
  { unfold cells. cbn [act world]. apply commit_cells, Hgh. }
  repeat match goal with |- _ ∧ _ => split end; try assumption.
  - intros Hnone. destruct (Hstale Hnone) as [Hid Hnav].
    split; [exact Hid|]. split; [exact Hnav|].
    intros id Hsome. rewrite Hcells. split; [|exact Htr].
    assert (Hlh : live_watch h) by (apply act_live_watch, Hl).
    apply (act_live_watch h Render) in Hlh. destruct Hlh as (_ & Hreg & _).
    apply Hreg. rewrite Hcells, Hid. exact Hsome.
  - intros Hu Hsettled.
    pose proof (acts_one_watch_per_render l _ Hlive Hone Hu) as Hk.
    fold m in Hk. unfold one_watch_per_render in Hk.
    rewrite decide_True in Hk by exact Hsettled.
    destruct m as [[s b] r]. unfold cells, nav, h in *.
    cbn [world rendered fst snd act handle] in *. subst r.
    unfold stopTracking. destruct (watchId s) as [id|] eqn:Hw.
    + unfold commit. cbn [fst snd watchId setIsTracking setWatchId].
      rewrite decide_False by discriminate.
      unfold checkLocationPermission, cleanup, clearWatch. cbn. rewrite Hgeo. cbn.
      rewrite Hk. cbn. rewrite watch_cleared_twice.
      repeat match goal with |- _ ∧ _ => split end; try reflexivity.
      lia.
    + unfold commit. cbn [fst snd watchId setIsTracking].
      rewrite !decide_True by (cbn; congruence).
      cbn. rewrite Hw. cbn. rewrite decide_True by (cbn; congruence).
      repeat match goal with |- _ ∧ _ => split end;
        rewrite ?Hw; auto; lia.
Qed.

(** X5. A position received by the success callback is stored with its
    latitude, longitude, accuracy and timestamp unchanged; its heading is
    stored as absent exactly when the browser reports [null], a zero or
    NaN, and likewise its speed.  The callback clears the recorded error
    and sets the permission flag, and it leaves the tracking flag and
    [watchId] as they were. *)
Theorem successCallback_sample (position : GeolocationPosition) (s : State) :
  let s' := successCallback position s in
  ∃ d, currentLocation s' = Some d
  ∧ latitude d = coords_latitude (coords position)
  ∧ longitude d = coords_longitude (coords position)
  ∧ accuracy d = coords_accuracy (coords position)
  ∧ timestamp d = position_timestamp position
  ∧ (heading d = None ↔
     coords_heading (coords position) = None
     ∨ ∃ x, coords_heading (coords position) = Some x
            ∧ (is_zero x = true ∨ is_nan x = true))
  ∧ (speed d = None ↔
     coords_speed (coords position) = None
     ∨ ∃ x, coords_speed (coords position) = Some x
            ∧ (is_zero x = true ∨ is_nan x = true))
  ∧ error s' = None
  ∧ hasLocationPermission s' = true
  ∧ isTracking s' = isTracking s
  ∧ watchId s' = watchId s.
Proof.
  cbv zeta. exists (locationData_of position). cbn.
  repeat match goal with |- _ ∧ _ => split end; try reflexivity;
    apply or_undefined_absent.
Qed.

End Lifecycle.

(** ** The page with the clickable map, event by event *)

Section PlannerEvents.
Import Js Route Http PlannerPage PlannerSession.

Lemma calculation_frame (coords : RouteFormData) (res : FetchResult) (s : State) :
  let s' := handleRouteCalculation coords res s in
  loading s' = false
  ∧ coordinates s' = coords
  ∧ selectedLocation s' = selectedLocation s
  ∧ isFullscreen s' = isFullscreen s
  ∧ showRouteForm s' = showRouteForm s
  ∧ showDirections s' = showDirections s.
Proof.
  cbv zeta. destruct res as [err|r].
  - rewrite calculation_rejected. repeat split.
  - destruct (body r) as [m|m|data] eqn:Hb.
    + rewrite (calculation_malformed coords r m s Hb). repeat split.
    + rewrite (calculation_null coords r m s Hb). repeat split.
    + rewrite (calculation_parsed coords r data s Hb).
      destruct (success data); repeat split.
Qed.

Lemma step_selectedLocation (s : State) (e : Event) :
  selectedLocation s = None → selectedLocation (step s e) = None.
Proof.
  intros H. destruct e; cbn; try exact H; try reflexivity.
  - destruct (calculation_frame coords res s) as (_ & _ & -> & _). exact H.
  - destruct (no_route s); [reflexivity | exact H].
Qed.

Lemma run_selectedLocation (es : list Event) (s : State) :
  selectedLocation s = None → selectedLocation (run s es) = None.
Proof.
  revert s. induction es as [|e es IH]; intros s H; cbn; [exact H|].
  apply IH, step_selectedLocation, H.
Qed.

(** X6. Nothing on the page ever sets the pending endpoint: it is [null]
    in every state the page reaches, so a click on the map, with or
    without a route on screen, leaves the whole page state, the
    coordinates included, as it was. *)
Theorem map_click_changes_nothing (es : list Event) (lat lng : number) :
  let s := run initial es in
  selectedLocation s = None
  ∧ step s (MapClick lat lng) = s.
Proof.
  cbv zeta.
  pose proof (run_selectedLocation es initial eq_refl) as H.
  split; [exact H|].
  destruct (run initial es) as [r l e sl f sf sd c]. cbn in H. subst sl.
  cbn. destruct (no_route _); reflexivity.
Qed.

(** X7. A reset, from the form or from the result card, in whatever
    state of the page, leaves no route, no error and no pending endpoint,
    switches the directions off and brings the form on screen in both
    layouts, also when it had been closed in the fullscreen layout; the
    loading flag and the layout are left alone; the form's reset puts the
    default coordinates back and the card's reset keeps the coordinates;
    and a second reset changes nothing. *)
Theorem reset_shows_form (s : State) :
  let a := step s FormReset in
  let b := step s ResultReset in
  (route a = None ∧ error a = None ∧ selectedLocation a = None
   ∧ showDirections a = false ∧ form_shown a = true
   ∧ loading a = loading s ∧ isFullscreen a = isFullscreen s
   ∧ coordinates a = RouteForm.defaultData
   ∧ step a FormReset = a)
  ∧ (route b = None ∧ error b = None ∧ selectedLocation b = None
     ∧ showDirections b = false ∧ form_shown b = true
     ∧ loading b = loading s ∧ isFullscreen b = isFullscreen s
     ∧ coordinates b = coordinates s
     ∧ step b ResultReset = b).
Proof.
  cbv zeta. destruct s as [r l e sl f sf sd c]. cbn.
  unfold form_shown. cbn. destruct f; repeat split.
Qed.

(** X8. However its request ends, [handleRouteCalculation] leaves the
    loading flag off, keeps the submitted coordinates and touches neither
    the pending endpoint nor the layout; the error is [null] afterwards
    exactly when an envelope with a truthy [success] arrived, and a route
    is on screen only in that case. *)
Theorem calculation_outcome (coords : RouteFormData) (res : FetchResult)
    (s : State) :
  let s' := handleRouteCalculation coords res s in
  loading s' = false
  ∧ coordinates s' = coords
  ∧ selectedLocation s' = selectedLocation s
  ∧ isFullscreen s' = isFullscreen s
  ∧ showRouteForm s' = showRouteForm s
  ∧ showDirections s' = showDirections s
  ∧ (error s' = None ↔ no_success_envelope res = false)
  ∧ (is_Some (route s') → no_success_envelope res = false).
Proof.
  cbv zeta.
  destruct (calculation_frame coords res s) as (H1 & H2 & H3 & H4 & H5 & H6).
  repeat match goal with |- _ ∧ _ => split end; try assumption.
  - destruct res as [err|r]; cbn.
    + rewrite calculation_rejected. cbn. split; discriminate.
    + destruct (body r) as [m|m|data] eqn:Hb.
      * rewrite (calculation_malformed coords r m s Hb). cbn. split; discriminate.
      * rewrite (calculation_null coords r m s Hb). cbn. split; discriminate.
      * rewrite (calculation_parsed coords r data s Hb).
        destruct (success data); cbn; split; auto; discriminate.
  - destruct res as [err|r]; cbn.
    + rewrite calculation_rejected. cbn. intros [x Hx]. discriminate.
    + destruct (body r) as [m|m|data] eqn:Hb.
      * rewrite (calculation_malformed coords r m s Hb). cbn.
        intros [x Hx]. discriminate.
      * rewrite (calculation_null coords r m s Hb). cbn.
        intros [x Hx]. discriminate.
      * rewrite (calculation_parsed coords r data s Hb).
        destruct (success data); cbn; [reflexivity|].
        intros [x Hx]. discriminate.
Qed.

End PlannerEvents.

(** ** The page with live navigation, event by event *)

Section NavigatorEvents.
Import Js Route Http NavigatorPage NavigatorSession.

Lemma submit_accepted (formData : RouteFormData) (res : FetchResult) (s : State)
    (rt : RouteData) :
  accepted_route res = Some rt →
  handleRouteSubmit formData res s =
  setIsLoading false
    (setSelectedToLocation
       (Some {| NavigatorPage.name := "Destination";
                coordinates := (endLng formData, endLat formData) |})
       (setSelectedFromLocation
          (Some {| NavigatorPage.name := "Start Location";
                   coordinates := (startLng formData, startLat formData) |})
          (setRouteData (Some rt) (setError None (setIsLoading true s))))).
Proof.
  destruct res as [err|r]; cbn; [discriminate|].
  destruct (ok r) eqn:Hok; [|discriminate].
  destruct (body r) as [m|m|data] eqn:Hb; try discriminate.
  destruct (success data) eqn:Hs; [|discriminate].
  intros Hr. apply (submit_success formData r data rt s Hok Hb Hs Hr).
Qed.

Lemma submit_refused (formData : RouteFormData) (res : FetchResult) (s : State) :
  accepted_route res = None →
  ∃ m, handleRouteSubmit formData res s =
       setIsLoading false (setError (Some m) (setError None (setIsLoading true s))).
Proof.
  destruct res as [err|r]; cbn.
  - intros _. rewrite submit_rejected. unfold submit_catch.
    repeat match goal with |- context [if ?b then _ else _] => destruct b end;
      eauto.
  - destruct (ok r) eqn:Hok.
    + destruct (body r) as [m|m|data] eqn:Hb.
      * intros _. rewrite (submit_malformed formData r m s Hok Hb). eauto.
      * intros _. rewrite (submit_null formData r m s Hok Hb). unfold submit_catch.
        repeat match goal with |- context [if ?b then _ else _] => destruct b end;
          eauto.
      * intros Hr.
        rewrite (submit_failure_envelope formData r data s Hok Hb); [eauto|].
        destruct (success data); [|reflexivity]. rewrite Hr. reflexivity.
    + intros _. rewrite submit_not_ok by exact Hok. eauto.
Qed.

Lemma submit_stored (formData : RouteFormData) (res : FetchResult) (s : State) :
  let s' := handleRouteSubmit formData res s in
  isNavigationMode s' = isNavigationMode s
  ∧ routeData s' = match accepted_route res with
                   | Some rt => Some rt
                   | None => routeData s
                   end
  ∧ navigationDestination s' =
      match accepted_route res with
      | Some _ => Some (requested_destination formData)
      | None => navigationDestination s
      end.
Proof.
  cbv zeta. destruct (accepted_route res) as [rt|] eqn:Ha.
  - rewrite (submit_accepted formData res s rt Ha). repeat split.
  - destruct (submit_refused formData res s Ha) as [m ->]. repeat split.
Qed.

(** X9. [handleRouteSubmit] always ends with the loading flag off and
    never touches the navigation mode.  When the response passes both
    checks, its route is stored with no error and the destination handed
    to live navigation is the end point of the form, latitude and
    longitude back in their places.  In every other case an error is
    recorded and the stored route, the two named points and the
    destination are those of the last accepted submission. *)
Theorem submit_outcome (formData : RouteFormData) (res : FetchResult) (s : State) :
  let s' := handleRouteSubmit formData res s in
  isLoading s' = false
  ∧ isNavigationMode s' = isNavigationMode s
  ∧ (error s' = None ↔ is_Some (accepted_route res))
  ∧ routeData s' = match accepted_route res with
                   | Some rt => Some rt
                   | None => routeData s
                   end
  ∧ navigationDestination s' =
      match accepted_route res with
      | Some _ => Some (requested_destination formData)
      | None => navigationDestination s
      end
  ∧ (accepted_route res = None →
     selectedFromLocation s' = selectedFromLocation s
     ∧ selectedToLocation s' = selectedToLocation s).
Proof.
  cbv zeta. destruct (accepted_route res) as [rt|] eqn:Ha.
  - rewrite (submit_accepted formData res s rt Ha). cbn.
    repeat match goal with |- _ ∧ _ => split end; try reflexivity.
    + split; [eauto | reflexivity].
    + discriminate.
  - destruct (submit_refused formData res s Ha) as [m ->]. cbn.
    repeat match goal with |- _ ∧ _ => split end; try reflexivity.
    + split; [discriminate | intros [x Hx]; discriminate].
    + auto.
Qed.

Lemma step_route_destination (s : State) (e : Event) :
  (is_Some (routeData s) → is_Some (navigationDestination s)) →
  is_Some (routeData (step s e)) → is_Some (navigationDestination (step s e)).
Proof.
  intros Hinv. destruct e; cbn; try exact Hinv.
  - destruct (submit_stored formData res s) as (_ & Hr & Hd).
    rewrite Hr, Hd. destruct (accepted_route res); [eauto | exact Hinv].
  - intros [x Hx]. discriminate.
Qed.

(** X10. Whenever the page holds a route there is a destination for live
    navigation: in every state the page reaches, [LiveNavigation] is never
    rendered with a [null] destination. *)
Theorem route_has_destination (es : list Event) :
  let s := run initial es in
  (is_Some (routeData s) → is_Some (navigationDestination s))
  ∧ (liveNavigationShown s = true → is_Some (navigationDestination s)).
Proof.
  cbv zeta.
  assert (H : is_Some (routeData (run initial es)) →
              is_Some (navigationDestination (run initial es))).
  { assert (H0 : is_Some (routeData initial) →
                 is_Some (navigationDestination initial)).
    { intros [x Hx]. discriminate. }
    revert H0. generalize initial.
    induction es as [|e es IH]; intros s Hs; cbn; [exact Hs|].
    apply IH. apply step_route_destination, Hs. }
  split; [exact H|].
  unfold liveNavigationShown. intros Hl.
  apply andb_true_iff in Hl as [_ Hl]. apply bool_decide_eq_true in Hl. auto.
Qed.

(** X11. A reset does not leave the navigation mode: it takes the route
    and with it [LiveNavigation] off the screen, and the next accepted
    submission brings [LiveNavigation] back without a new start of the
    navigation. *)
Theorem navigation_survives_reset (formData : RouteFormData) (res : FetchResult)
    (s : State) :
  isNavigationMode s = true →
  is_Some (accepted_route res) →
  liveNavigationShown (step s Reset) = false
  ∧ isNavigationMode (step s Reset) = true
  ∧ liveNavigationShown (step (step s Reset) (Submit formData res)) = true.
Proof.
  intros Hn [rt Hrt]. cbn. unfold onReset, liveNavigationShown.
  destruct (submit_stored formData res (setRouteData None s))
    as (Hmode & Hr & _).
  rewrite Hmode, Hr, Hrt. cbn. rewrite Hn. cbn.
  repeat split.
Qed.

End NavigatorEvents.

(** ** The route form, event by event *)

Section FormEvents.
Import Js Route LocationSelector RouteForm FormSession.

(** The handler of an event, before the effect on [coordinates]. *)
Lemma step_handler (w : World) (e : Event) :
  coherent w →
  step w e =
    match e with
    | StartChange location => handleStartLocationChange location w
    | EndChange location => handleEndLocationChange location w
    | SwapClick loading => if swap_disabled loading (fst w) then w else swapLocations w
    | ResetClick loading => if loading then w else handleReset w
    end
  ∧ coherent (step w e).
Proof.
  intros Hco. unfold step.
  destruct (handlers_coherent w None) as (_ & _ & _ & Hreset).
  assert (H : coherent
            match e with
            | StartChange location => handleStartLocationChange location w
            | EndChange location => handleEndLocationChange location w
            | SwapClick loading =>
                if swap_disabled loading (fst w) then w else swapLocations w
            | ResetClick loading => if loading then w else handleReset w
            end).
  { destruct e as [l|l|b|b].
    - apply (handlers_coherent w l), Hco.
    - apply (handlers_coherent w l), Hco.
    - destruct (swap_disabled b (fst w)); [exact Hco | apply swapLocations_coherent].
    - destruct b; [exact Hco | exact Hreset]. }
  rewrite (syncCoordinates_coherent _ H). auto.
Qed.

Lemma step_selection_matches (w : World) (e : Event) :
  coherent w → selection_matches (fst w) →
  selection_matches (fst (step w e)).
Proof.
  intros Hco [Hs He]. destruct (step_handler w e Hco) as [-> _].
  destruct w as [s h]. cbn [fst] in *.
  destruct e as [[l|]|[l|]|b|b]; cbn.
  - split; cbn; [intros l' [= <-]; auto | exact He].
  - split; cbn; [discriminate | exact He].
  - split; cbn; [exact Hs | intros l' [= <-]; auto].
  - split; cbn; [exact Hs | discriminate].
  - destruct (swap_disabled b s); cbn; [split; assumption|].
    split; cbn; auto.
  - destruct b; cbn; [split; assumption|]. split; cbn; discriminate.
Qed.

Lemma run_selection_matches (es : list Event) (w : World) :
  coherent w → selection_matches (fst w) →
  coherent (run w es) ∧ selection_matches (fst (run w es)).
Proof.
  revert w. induction es as [|e es IH]; intros w Hco Hm; cbn; [auto|].
  apply IH; [apply step_handler, Hco | apply step_selection_matches; assumption].
Qed.





(** X16. A fix of the current location that arrives after the
    destination has been picked puts back the destination coordinates
    that the form showed when the button was clicked: the picked location
    stays selected as the destination, and a click on the submit button
    sends the old coordinates in its place. *)
Theorem late_fix_restores_destination (x : Session) (b : Location)
    (latitude longitude : number) :
  let old := formData (fst (form x)) in
  let x1 := feed x CurrentLocationClick in
  let x2 := feed x1 (User (EndChange (Some b))) in
  let x3 := feed x2 (CurrentLocationFix (length (requests x)) latitude longitude) in
  let sent := {| startLat := latitude; startLng := longitude;
                 endLat := endLat old; endLng := endLng old |} in
  selectedStartLocation (fst (form x3)) = Some (currentLoc latitude longitude)
  ∧ selectedEndLocation (fst (form x3)) = Some b
  ∧ formData (fst (form x3)) = sent
  ∧ clickSubmit false (fst (form x3)) = Some sent
  ∧ (LocationSelector.lat b ≠ endLat old ∨ LocationSelector.lng b ≠ endLng old →
     ¬ selection_matches (fst (form x3))).
Proof.
  cbv zeta. destruct x as [[s h] rs]. cbn [feed form requests fst snd].
  rewrite lookup_app_r by reflexivity.
  rewrite Nat.sub_diag. cbn [lookup list_lookup form requests].
  assert (Hform : ∀ w : World,
    selectedEndLocation (fst w) = Some b →
    let w' := syncCoordinates
                (handleStartLocationChangeOf (formData s)
                   (Some (currentLoc latitude longitude)) w) in
    selectedStartLocation (fst w') = Some (currentLoc latitude longitude)
    ∧ selectedEndLocation (fst w') = Some b
    ∧ formData (fst w') = {| startLat := latitude; startLng := longitude;
                             endLat := endLat (formData s);
                             endLng := endLng (formData s) |}).
  { intros [s' [c|]] Hb; cbn in *; auto. }
  assert (He : selectedEndLocation (fst (step (s, h) (EndChange (Some b)))) = Some b).
  { destruct h; reflexivity. }
  destruct (Hform _ He) as (H1 & H2 & H3).
  unfold clickSubmit, submit_disabled, swap_disabled, handleSubmit, validateForm.
  cbv zeta in H1, H2, H3.
  repeat match goal with |- _ ∧ _ => split end;
    try (rewrite ?H1, ?H2, ?H3; reflexivity).
  intros Hne [_ Hm]. destruct (Hm b H2) as [Hlat Hlng].
  rewrite H3 in Hlat, Hlng. cbn in Hlat, Hlng.
  destruct Hne as [Hne|Hne]; apply Hne; congruence.
Qed.

End FormEvents.

(** ** Which locations can end up at the two ends of the form *)

Section Endpoints.
Import Js Route LocationSelector RouteForm FormSession.

Variable catalog : list Location.
Variable categories : list string.
Variable toLowerCase : string → string.

Lemma step_selected (w : World) (e : Event) :
  selectedStartLocation (fst (step w e)) =
    match e with
    | StartChange location => location
    | EndChange _ => selectedStartLocation (fst w)
    | SwapClick loading =>
        if swap_disabled loading (fst w) then selectedStartLocation (fst w)
        else selectedEndLocation (fst w)
    | ResetClick loading =>
        if loading then selectedStartLocation (fst w) else None
    end
  ∧ selectedEndLocation (fst (step w e)) =
    match e with
    | StartChange _ => selectedEndLocation (fst w)
    | EndChange location => location
    | SwapClick loading =>
        if swap_disabled loading (fst w) then selectedEndLocation (fst w)
        else selectedStartLocation (fst w)
    | ResetClick loading =>
        if loading then selectedEndLocation (fst w) else None
    end.
Proof.
  unfold step.
  assert (Hsync : ∀ x : World,
    selectedStartLocation (fst (syncCoordinates x)) = selectedStartLocation (fst x)
    ∧ selectedEndLocation (fst (syncCoordinates x)) = selectedEndLocation (fst x)).
  { intros [s [c|]]; split; reflexivity. }
  destruct (Hsync
    match e with
    | StartChange location => handleStartLocationChange location w
    | EndChange location => handleEndLocationChange location w
    | SwapClick loading => if swap_disabled loading (fst w) then w else swapLocations w
    | ResetClick loading => if loading then w else handleReset w
    end) as [-> ->].
  destruct w as [s h].
  destruct e as [[l|]|[l|]|b|b]; cbn; try (split; reflexivity).
  - destruct (swap_disabled b s); split; reflexivity.
  - destruct b; split; reflexivity.
Qed.

(** X13. As long as the endpoints are chosen from the lists the two
    selectors offer, cleared, swapped or reset, the form never holds two
    locations with the same id. *)
Theorem catalog_picks_distinct (w w' : World) :
  distinct_endpoints (fst w) →
  reaches (catalog_event catalog categories toLowerCase) w w' →
  distinct_endpoints (fst w').
Proof.
  intros Hw Hreach. induction Hreach as [|w' e Hreach IH Hallowed]; [exact Hw|].
  intros a b Ha Hb.
  destruct (step_selected w' e) as [Hs He]. rewrite Hs in Ha. rewrite He in Hb.
  destruct e as [[l|]|[l|]|loading|loading]; cbn in Hallowed.
  - injection Ha as <-. destruct Hallowed as [st Hoff].
    apply offered_not_excluded in Hoff as [_ Hne].
    cbn in Hne. rewrite Hb in Hne. cbn in Hne. congruence.
  - discriminate.
  - injection Hb as <-. destruct Hallowed as [st Hoff].
    apply offered_not_excluded in Hoff as [_ Hne].
    cbn in Hne. rewrite Ha in Hne. cbn in Hne. congruence.
  - discriminate.
  - destruct (swap_disabled loading (fst w')).
    + apply IH; assumption.
    + intros Heq. apply (IH b a Hb Ha). congruence.
  - destruct loading; [apply IH; assumption | discriminate].
Qed.

(** X14. The swap button can put the current location at the destination,
    where the selector does not offer it: with the current location as
    start and any offered location as end, a swap makes the current
    location the end, and choosing the current location as start again
    leaves both ends with the id of the current location. *)
Theorem swap_moves_current_location (w : World) (lat1 lng1 lat2 lng2 : number)
    (l : Location) (st : LocationSelector.State) :
  let w1 := step w (StartChange (Some (currentLoc lat1 lng1))) in
  let w2 := step w1 (EndChange (Some l)) in
  let w3 := step w2 (SwapClick false) in
  let w4 := step w3 (StartChange (Some (currentLoc lat2 lng2))) in
  l ∈ offered catalog categories toLowerCase (endSelectorProps (fst w1)) st →
  reaches (offered_event catalog categories toLowerCase) w w4
  ∧ allowCurrentLocation (endSelectorProps (fst w2)) = false
  ∧ selectedStartLocation (fst w3) = Some l
  ∧ selectedEndLocation (fst w3) = Some (currentLoc lat1 lng1)
  ∧ selectedStartLocation (fst w4) = Some (currentLoc lat2 lng2)
  ∧ selectedEndLocation (fst w4) = Some (currentLoc lat1 lng1)
  ∧ ¬ distinct_endpoints (fst w4).
Proof.
  cbv zeta. intros Hoff.
  set (w1 := step w (StartChange (Some (currentLoc lat1 lng1)))) in *.
  set (w2 := step w1 (EndChange (Some l))).
  set (w3 := step w2 (SwapClick false)).
  set (w4 := step w3 (StartChange (Some (currentLoc lat2 lng2)))).
  destruct (step_selected w (StartChange (Some (currentLoc lat1 lng1)))) as [Hs1 He1].
  destruct (step_selected w1 (EndChange (Some l))) as [Hs2 He2].
  destruct (step_selected w2 (SwapClick false)) as [Hs3 He3].
  destruct (step_selected w3 (StartChange (Some (currentLoc lat2 lng2)))) as [Hs4 He4].
  fold w1 in Hs1, He1. fold w2 in Hs2, He2. fold w3 in Hs3, He3. fold w4 in Hs4, He4.
  assert (Hen : swap_disabled false (fst w2) = false).
  { apply swap_disabled_false. rewrite Hs2, He2, Hs1. eauto. }
  rewrite Hen in Hs3, He3. rewrite He2 in Hs3. rewrite Hs2, Hs1 in He3.
  rewrite He3 in He4.
  repeat match goal with |- _ ∧ _ => split end; try assumption; try reflexivity.
  - unfold w4, w3, w2. repeat eapply reaches_step; try apply reaches_here; cbn; eauto.
  - intros Hd. apply (Hd _ _ Hs4 He4). reflexivity.
Qed.

End Endpoints.

(** ** What the drop-down lists *)

Section DropDown.
Import Js LocationSelector.

Variable catalog : list Location.
Variable categories : list string.
Variable toLowerCase : string → string.

Lemma elem_of_concat {A} (x : A) (ls : list (list A)) :
  x ∈ concat ls ↔ ∃ l, l ∈ ls ∧ x ∈ l.
Proof.
  induction ls as [|l ls IH]; cbn.
  - split; [intros H; inversion H | intros (l & H & _); inversion H].
  - rewrite elem_of_app, IH. split.
    + intros [H|(l' & H1 & H2)]; [exists l | exists l']; split; auto;
        [apply list_elem_of_here | apply list_elem_of_further, H1].
    + intros (l' & H1 & H2). apply elem_of_cons in H1 as [->|H1]; eauto.
Qed.

Lemma obj_set_entries {A} (key : string) (v : A) (obj : list (string * A)) :
  NoDup obj.*1 →
  NoDup (obj_set key v obj).*1
  ∧ ∀ k w, (k, w) ∈ obj_set key v obj ↔
           (k = key ∧ w = v) ∨ (k ≠ key ∧ (k, w) ∈ obj).
Proof.
  induction obj as [|[k0 w0] rest IH]; cbn; intros Hnd.
  - split; [apply NoDup_singleton|]. intros k w.
    rewrite list_elem_of_singleton. split.
    + intros [= -> ->]. auto.
    + intros [[-> ->]|[_ H]]; [reflexivity | inversion H].
  - apply NoDup_cons in Hnd as [Hk0 Hnd]. destruct (IH Hnd) as [IHnd IHin].
    case_bool_decide as Hk; cbn.
    + subst k0. split; [apply NoDup_cons; auto|]. intros k w.
      rewrite !elem_of_cons. split.
      * intros [[= -> ->]|H]; [auto|]. right. split; [|auto].
        intros ->. apply Hk0. apply list_elem_of_fmap. exists (key, w). auto.
      * intros [[-> ->]|[Hne [[= -> ->]|H]]]; auto. contradiction.
    + split.
      * apply NoDup_cons. split; [|exact IHnd].
        intros Hin. apply list_elem_of_fmap in Hin as ([k w] & Hkw & Hin).
        cbn in Hkw. subst k. apply IHin in Hin as [[-> _]|[_ Hin]].
        { contradiction. }
        apply Hk0. apply list_elem_of_fmap. exists (k0, w). auto.
      * intros k w. rewrite !elem_of_cons, IHin. split.
        { intros [[= -> ->]|[[-> ->]|[Hne H]]]; auto. }
        { intros [[-> ->]|[Hne [[= -> ->]|H]]]; auto. }
Qed.

Lemma grouped_entries (p : Props) (st : State) :
  let F := filteredLocations catalog toLowerCase p st in
  ∀ cs,
    NoDup (foldl (λ acc c, obj_set c (filter (λ loc, category loc = c) F) acc)
             [] cs).*1
    ∧ ∀ k w,
        (k, w) ∈ foldl (λ acc c, obj_set c (filter (λ loc, category loc = c) F) acc)
                   [] cs ↔
        k ∈ cs ∧ w = filter (λ loc, category loc = k) F.
Proof.
  intros F cs. induction cs as [|c cs [IHnd IHin]] using rev_ind.
  - cbn. split; [apply NoDup_nil_2|]. intros k w. split.
    + intros H. inversion H.
    + intros [H _]. inversion H.
  - rewrite foldl_app. cbn.
    destruct (obj_set_entries c (filter (λ loc, category loc = c) F) _ IHnd)
      as [Hnd Hin].
    split; [exact Hnd|]. intros k w.
    rewrite Hin, IHin, elem_of_app, list_elem_of_singleton. split.
    + intros [[-> ->]|[Hne [Hk ->]]]; auto.
    + intros [[Hk | ->] ->]; [|auto].
      destruct (decide (k = c)) as [->|Hne]; auto.
Qed.

(** X15. The open drop-down lists a location exactly when it is in the
    catalog, is not the excluded one, matches the search text in its name
    or description, matches the selected category, and has a category
    that the catalog's list of categories contains: a location with an
    unlisted category is never shown, also under "all".  A closed
    drop-down lists nothing. *)
Theorem offered_exactly (p : Props) (st : State) (x : Location) :
  x ∈ offered catalog categories toLowerCase p st ↔
  isOpen st = true
  ∧ x ∈ catalog
  ∧ Some (id x) ≠ excludeLocationId p
  ∧ matchesSearch toLowerCase st x = true
  ∧ matchesCategory st x = true
  ∧ category x ∈ categories.
Proof.
  unfold offered. destruct (isOpen st).
  2:{ split; [intros H; inversion H | intros [H _]; discriminate]. }
  unfold groupedLocations.
  destruct (grouped_entries p st categories) as [_ Hin].
  cbv zeta in Hin. rewrite elem_of_concat. split.
  - intros (l & Hl & Hx).
    apply list_elem_of_fmap in Hl as ([k w] & -> & Hkw). cbn in Hx.
    apply Hin in Hkw as [Hk ->].
    apply list_elem_of_filter in Hx as [Hcat Hx]. subst k.
    unfold filteredLocations, locations in Hx.
    apply list_elem_of_filter in Hx as [Hm Hx].
    apply list_elem_of_filter in Hx as [Hne Hx].
    apply andb_True in Hm as [Hm1 Hm2].
    apply Is_true_true in Hm1. apply Is_true_true in Hm2. auto 10.
  - intros (_ & Hcat & Hne & Hm1 & Hm2 & Hk).
    exists (filter (λ loc, category loc = category x)
              (filteredLocations catalog toLowerCase p st)).
    split.
    + apply list_elem_of_fmap.
      exists (category x, filter (λ loc, category loc = category x)
                            (filteredLocations catalog toLowerCase p st)).
      split; [reflexivity|]. apply Hin. auto.
    + apply list_elem_of_filter. split; [reflexivity|].
      unfold filteredLocations, locations.
      apply list_elem_of_filter. split; [rewrite Hm1, Hm2; exact I|].
      apply list_elem_of_filter. auto.
Qed.

End DropDown.

(** ** Further worked cases *)

Section MoreCases.
Import Js Route Http.

(** One [startTracking] on a browser with geolocation, before and after
    its render. *)
Lemma single_subscription_started :
  let l := [LocationContext.Call LocationContext.StartTracking] in
  let m := LocationContext.acts
             (LocationContext.mounted (LocationSession.idle_browser true 0)) l in
  LocationContext.isTracking (LocationContext.cells m) = true
  ∧ (∃ id, LocationContext.watchId (LocationContext.cells m) = Some id
           ∧ id ∈ LocationContext.watches (LocationContext.nav m))
  ∧ LocationContext.unbatched
      (LocationContext.mounted (LocationSession.idle_browser true 0)) l = true
  ∧ LocationContext.watches
      (LocationContext.nav (LocationContext.act m LocationContext.Render))
    = {[ 0 ]}.
Proof.
  cbv zeta.
  destruct (single_subscription true 0
              [LocationContext.Call LocationContext.StartTracking])
    as [Htracking Hrendered].
  destruct (Hrendered eq_refl) as (_ & _ & Hrender & _).
  repeat match goal with |- _ ∧ _ => split end;
    [reflexivity | exact (Htracking eq_refl) | reflexivity | exact Hrender].
Defined.

(** Unmounting after one [startTracking] and its render, and unmounting
    before that render. *)
Lemma unmount_releases_started :
  let b := LocationSession.idle_browser true 0 in
  let start := LocationContext.Call LocationContext.StartTracking in
  let m := LocationContext.acts (LocationContext.mounted b)
             [start; LocationContext.Render] in
  let m' := LocationContext.acts (LocationContext.mounted b) [start] in
  LocationContext.watches (LocationContext.nav m) = {[ 0 ]}
  ∧ LocationContext.watches (LocationContext.unmount m) = ∅
  ∧ LocationContext.watchId (LocationContext.cells m') = Some 0
  ∧ LocationContext.rendered m' = None
  ∧ 0 ∈ LocationContext.watches (LocationContext.unmount m').
Proof.
  cbv zeta.
  destruct (unmount_releases true 0
              [LocationContext.Call LocationContext.StartTracking;
               LocationContext.Render]) as (_ & _ & Hrendered).
  destruct (unmount_releases true 0
              [LocationContext.Call LocationContext.StartTracking])
    as (_ & Hpending & _).
  repeat match goal with |- _ ∧ _ => split end;
    [ apply union_empty_r_L | exact (Hrendered eq_refl) | reflexivity | reflexivity
    | apply (Hpending 0); [reflexivity | discriminate] ].
Defined.

(** [stopTracking] after one [startTracking] and its render, and
    [stopTracking] in the batch of that [startTracking]. *)
Lemma stopTracking_idle_started :
  let b := LocationSession.idle_browser true 0 in
  let start := LocationContext.Call LocationContext.StartTracking in
  let stop := LocationContext.Call LocationContext.StopTracking in
  let m := LocationContext.acts (LocationContext.mounted b)
             [start; LocationContext.Render] in
  let m' := LocationContext.act (LocationContext.act m stop) LocationContext.Render in
  let n := LocationContext.acts (LocationContext.mounted b) [start] in
  let n' := LocationContext.act (LocationContext.act n stop) LocationContext.Render in
  LocationContext.isTracking (LocationContext.cells m) = true
  ∧ LocationContext.watchId (LocationContext.cells m') = None
  ∧ LocationContext.watches (LocationContext.nav m') = ∅
  ∧ LocationContext.queries (LocationContext.nav m') = 3%nat
  ∧ LocationContext.isTracking (LocationContext.cells n') = false
  ∧ 0 ∈ LocationContext.watches (LocationContext.nav n').
Proof.
  cbv zeta.
  destruct (stopTracking_idle 0
              [LocationContext.Call LocationContext.StartTracking;
               LocationContext.Render]) as (_ & _ & _ & _ & _ & _ & Hrendered).
  destruct (Hrendered eq_refl eq_refl) as (Hid & _ & Hnone & Hqueries & _).
  destruct (stopTracking_idle 0
              [LocationContext.Call LocationContext.StartTracking])
    as (_ & _ & _ & _ & _ & Hstale & _).
  destruct (Hstale eq_refl) as (_ & _ & Hkept).
  destruct (Hkept 0 eq_refl) as [Hlive Hidle].
  repeat match goal with |- _ ∧ _ => split end;
    [reflexivity | exact Hid | exact Hnone | exact Hqueries | exact Hidle
    | exact Hlive].
Defined.

(** An accepted submission followed by the start of the navigation. *)
Lemma route_has_destination_navigating :
  let s := NavigatorSession.run NavigatorPage.initial
             [NavigatorSession.Submit RouteForm.defaultData
                (Sample.respond 200 (Sample.success_envelope (Some Sample.straight)));
              NavigatorSession.StartNavigation] in
  NavigatorSession.liveNavigationShown s = true
  ∧ is_Some (NavigatorSession.navigationDestination s).
Proof.
  cbv zeta. split; [reflexivity|].
  apply (route_has_destination
           [NavigatorSession.Submit RouteForm.defaultData
              (Sample.respond 200 (Sample.success_envelope (Some Sample.straight)));
            NavigatorSession.StartNavigation]).
  reflexivity.
Defined.

(** A reset while navigating, then an accepted submission. *)
Lemma navigation_survives_reset_straight :
  let s := NavigatorPage.handleStartNavigation NavigatorPage.initial in
  let res := Sample.respond 200 (Sample.success_envelope (Some Sample.straight)) in
  NavigatorPage.isNavigationMode s = true
  ∧ is_Some (NavigatorSession.accepted_route res)
  ∧ NavigatorSession.liveNavigationShown
      (NavigatorSession.step s NavigatorSession.Reset) = false
  ∧ NavigatorSession.liveNavigationShown
      (NavigatorSession.step (NavigatorSession.step s NavigatorSession.Reset)
         (NavigatorSession.Submit RouteForm.defaultData res)) = true.
Proof.
  cbv zeta.
  assert (Ha : is_Some (NavigatorSession.accepted_route
                          (Sample.respond 200
                             (Sample.success_envelope (Some Sample.straight)))))
    by (exists Sample.straight; reflexivity).
  destruct (navigation_survives_reset RouteForm.defaultData
              (Sample.respond 200 (Sample.success_envelope (Some Sample.straight)))
              (NavigatorPage.handleStartNavigation NavigatorPage.initial)
              eq_refl Ha) as (H1 & _ & H3).
  repeat match goal with |- _ ∧ _ => split end;
    [reflexivity | exact Ha | exact H1 | exact H3].
Defined.


(** A click on the current-location button in a form that has just been
    mounted, the canteen picked as destination, and then the fix: the
    canteen is the selected destination and the form holds the default
    destination coordinates. *)
Lemma late_fix_restores_destination_canteen :
  let x := FormSession.session None in
  let x3 := FormSession.feeds x
              [FormSession.CurrentLocationClick;
               FormSession.User (FormSession.EndChange (Some Sample.canteen));
               FormSession.CurrentLocationFix 0 Sample.one Sample.one] in
  RouteForm.selectedEndLocation (fst (FormSession.form x3)) = Some Sample.canteen
  ∧ endLat (RouteForm.formData (fst (FormSession.form x3)))
    = endLat RouteForm.defaultData
  ∧ LocationSelector.lat Sample.canteen ≠ endLat RouteForm.defaultData
  ∧ ¬ FormSession.selection_matches (fst (FormSession.form x3)).
Proof.
  cbv zeta.
  destruct (late_fix_restores_destination (FormSession.session None)
              Sample.canteen Sample.one Sample.one) as (_ & Hend & Hdata & _ & Hno).
  assert (Hne : LocationSelector.lat Sample.canteen ≠ endLat RouteForm.defaultData)
    by discriminate.
  repeat match goal with |- _ ∧ _ => split end;
    [exact Hend | exact (f_equal endLat Hdata) | exact Hne
    | exact (Hno (or_introl Hne))].
Defined.

(** The library picked from the start list, then the canteen from the end
    list. *)
Lemma catalog_picks_library_canteen :
  let w := FormSession.mount None in
  let w1 := FormSession.step w (FormSession.StartChange (Some Sample.library)) in
  let w2 := FormSession.step w1 (FormSession.EndChange (Some Sample.canteen)) in
  FormSession.reaches
    (FormSession.catalog_event Sample.catalog Sample.categories Sample.toLowerCase)
    w w2
  ∧ FormSession.distinct_endpoints (fst w2).
Proof.
  cbv zeta.
  assert (Hreach : FormSession.reaches
            (FormSession.catalog_event Sample.catalog Sample.categories
               Sample.toLowerCase)
            (FormSession.mount None)
            (FormSession.step
               (FormSession.step (FormSession.mount None)
                  (FormSession.StartChange (Some Sample.library)))
               (FormSession.EndChange (Some Sample.canteen)))).
  { apply FormSession.reaches_step; [apply FormSession.reaches_step|].
    - apply FormSession.reaches_here.
    - exists Sample.opened. vm_compute. apply list_elem_of_here.
    - exists Sample.opened. vm_compute. apply list_elem_of_here. }
  split; [exact Hreach|].
  apply (catalog_picks_distinct Sample.catalog Sample.categories Sample.toLowerCase
           (FormSession.mount None) _); [|exact Hreach].
  intros a b Ha Hb. discriminate.
Defined.

(** The current location as start, the canteen as end, a swap, and the
    current location as start again. *)
Lemma swap_moves_current_location_canteen :
  let here := LocationSelector.currentLoc Sample.one Sample.one in
  let w := FormSession.mount None in
  let w1 := FormSession.step w (FormSession.StartChange (Some here)) in
  let w2 := FormSession.step w1 (FormSession.EndChange (Some Sample.canteen)) in
  let w3 := FormSession.step w2 (FormSession.SwapClick false) in
  let w4 := FormSession.step w3 (FormSession.StartChange (Some here)) in
  Sample.canteen
    ∈ LocationSelector.offered Sample.catalog Sample.categories Sample.toLowerCase
        (RouteForm.endSelectorProps (fst w1)) Sample.opened
  ∧ RouteForm.selectedEndLocation (fst w3) = Some here
  ∧ RouteForm.selectedStartLocation (fst w4) = Some here
  ∧ RouteForm.selectedEndLocation (fst w4) = Some here.
Proof.
  cbv zeta.
  assert (Hoff : Sample.canteen
            ∈ LocationSelector.offered Sample.catalog Sample.categories
                Sample.toLowerCase
                (RouteForm.endSelectorProps
                   (fst (FormSession.step (FormSession.mount None)
                           (FormSession.StartChange
                              (Some (LocationSelector.currentLoc Sample.one Sample.one))))))
                Sample.opened).
  { vm_compute. apply list_elem_of_further, list_elem_of_here. }
  destruct (swap_moves_current_location Sample.catalog Sample.categories
              Sample.toLowerCase (FormSession.mount None)
              Sample.one Sample.one Sample.one Sample.one
              Sample.canteen Sample.opened Hoff)
    as (_ & _ & _ & H3 & H4 & H5 & _).
  repeat match goal with |- _ ∧ _ => split end;
    [exact Hoff | exact H3 | exact H4 | exact H5].
Defined.

End MoreCases.
